(** * Faceted gall search (pages/search2.tsx)

    A shallow embedding of the filter engine of the search page: the
    don't-care test, the per-facet checks of [checkGall], the query merge
    [updateQuery], and the two handlers [onSubmit] (root query, one round
    trip) and [doSearch] (facet edit, local).  The React state pair
    [galls]/[query] is threaded explicitly. *)

From stdpp Require Import gmap strings list pretty sorting.
From Stdlib Require Import ZArith.

Local Open Scope string_scope.
Local Open Scope Z_scope.

(** ** Data model *)

(** Modelled from the spec: the row types of [@prisma/client] and the types
    [Gall], [GallLocation], [GallTexture] of [libs/types] are declared
    outside the sources at hand.  A record has six nullable single-valued
    attributes and two sequences of tags; every lookup row carries its label
    in a nullable column named after its table, which is how the page reads
    it ([g.color?.color], [gp?.location?.location]). *)
Record alignment := { alignment_alignment : option string }.
Record cells := { cells_cells : option string }.
Record color := { color_color : option string }.
Record shape := { shape_shape : option string }.
Record walls := { walls_walls : option string }.
Record location := { location_location : option string }.
Record texture := { texture_texture : option string }.

Record GallLocation := { gl_location : option location }.
Record GallTexture := { gt_texture : option texture }.

Record Gall := {
  g_id : Z;
  g_alignment : option alignment;
  g_cells : option cells;
  g_color : option color;
  g_detachable : option Z;
  g_shape : option shape;
  g_walls : option walls;
  g_galllocation : option (list (option GallLocation));
  g_galltexture : option (list (option GallTexture))
}.

(** A query value at run time is [string | string[]]; [undefined] is a
    missing key of the query object. *)
Inductive qval :=
| QStr (s : string)
| QArr (l : list string).

Abbreviation SearchQuery := (gmap string qval).

(** ** JavaScript primitives used by the page *)

(** [!!s] for a string. *)
Definition str_truthy (s : string) : bool :=
  match s with EmptyString => false | String _ _ => true end.

(** [!!o] for [o : string | string[] | undefined]: an array is an object and
    always truthy, also when empty. *)
Definition truthy (o : option qval) : bool :=
  match o with
  | None => false
  | Some (QStr s) => str_truthy s
  | Some (QArr _) => true
  end.

Definition isArray (o : option qval) : bool :=
  match o with Some (QArr _) => true | _ => false end.

(** [o?.length] *)
Definition qlength (o : option qval) : option nat :=
  match o with
  | None => None
  | Some (QStr s) => Some (String.length s)
  | Some (QArr l) => Some (length l)
  end.

(** [x === q] for a nullable label [x] of a row against a query value: only
    two strings with the same characters are strictly equal; [null] equals
    neither a string nor an array nor [undefined]. *)
Definition strict_eq (x : option string) (q : option qval) : bool :=
  match x, q with
  | Some s, Some (QStr t) => String.eqb s t
  | _, _ => false
  end.

(** [String.prototype.includes]: [sub] occurs in [s]. *)
Fixpoint str_includes (s sub : string) : bool :=
  String.prefix sub s ||
  match s with
  | EmptyString => false
  | String _ s' => str_includes s' sub
  end.

(** [queryvals.includes(tag)]: membership for an array, substring search when
    the stored value is a string. *)
Definition includes (queryvals : qval) (tag : string) : bool :=
  match queryvals with
  | QArr l => existsb (String.eqb tag) l
  | QStr s => str_includes s tag
  end.

(** ** Predicate evaluator *)

Definition dontCare (o : option qval) : bool :=
  let truthy := truthy o in
  negb truthy ||
  (if truthy && isArray o
   then match qlength o with Some n => Nat.eqb n 0 | None => false end
   else false).

(** [gp?.location?.location] and [gp?.texture?.texture] *)
Definition location_tag (gp : option GallLocation) : option string :=
  (gp ≫= gl_location) ≫= location_location.

Definition texture_tag (gp : option GallTexture) : option string :=
  (gp ≫= gt_texture) ≫= texture_texture.

(** The callback of [some]: [tag && queryvals.includes(tag)], read as a
    truth value. *)
Definition tag_hit (tag : option string) (queryvals : qval) : bool :=
  match tag with
  | Some t => str_truthy t && includes queryvals t
  | None => false
  end.

Definition checkLocations (gallprops : option (list (option GallLocation)))
    (queryvals : option qval) : bool :=
  match gallprops, queryvals with
  | Some gps, Some qv => existsb (fun gp => tag_hit (location_tag gp) qv) gps
  | _, _ => false
  end.

Definition checkTextures (gallprops : option (list (option GallTexture)))
    (queryvals : option qval) : bool :=
  match gallprops, queryvals with
  | Some gps, Some qv => existsb (fun gp => tag_hit (texture_tag gp) qv) gps
  | _, _ => false
  end.

(** [!!x] for a nullable object. *)
Definition present {A} (x : option A) : bool :=
  match x with Some _ => true | None => false end.

(** [!!g.detachable]: [null] and [0] are both falsy. *)
Definition num_truthy (n : option Z) : bool :=
  match n with Some k => negb (k =? 0) | None => false end.

(** [g.detachable == 0 ? 'no' : 'yes'] *)
Definition detachable_label (n : option Z) : string :=
  match n with
  | Some 0 => "no"
  | _ => "yes"
  end.

(** The eight local constants of [checkGall], one per facet. *)
Definition check_alignment (g : Gall) (q : SearchQuery) : bool :=
  dontCare (q !! "alignment") ||
  (present (g_alignment g) &&
   strict_eq (g_alignment g ≫= alignment_alignment) (q !! "alignment")).

Definition check_cells (g : Gall) (q : SearchQuery) : bool :=
  dontCare (q !! "cells") ||
  (present (g_cells g) && strict_eq (g_cells g ≫= cells_cells) (q !! "cells")).

Definition check_color (g : Gall) (q : SearchQuery) : bool :=
  dontCare (q !! "color") ||
  (present (g_color g) && strict_eq (g_color g ≫= color_color) (q !! "color")).

Definition check_detachable (g : Gall) (q : SearchQuery) : bool :=
  dontCare (q !! "detachable") ||
  (num_truthy (g_detachable g) &&
   strict_eq (Some (detachable_label (g_detachable g))) (q !! "detachable")).

Definition check_shape (g : Gall) (q : SearchQuery) : bool :=
  dontCare (q !! "shape") ||
  (present (g_shape g) && strict_eq (g_shape g ≫= shape_shape) (q !! "shape")).

Definition check_walls (g : Gall) (q : SearchQuery) : bool :=
  dontCare (q !! "walls") ||
  (present (g_walls g) && strict_eq (g_walls g ≫= walls_walls) (q !! "walls")).

Definition check_location (g : Gall) (q : SearchQuery) : bool :=
  dontCare (q !! "locations") ||
  (present (g_galllocation g) &&
   checkLocations (g_galllocation g) (q !! "locations")).

Definition check_texture (g : Gall) (q : SearchQuery) : bool :=
  dontCare (q !! "textures") ||
  (present (g_galltexture g) &&
   checkTextures (g_galltexture g) (q !! "textures")).

Definition checkGall (g : Gall) (q : SearchQuery) : bool :=
  let alignment := check_alignment g q in
  let cells := check_cells g q in
  let color := check_color g q in
  let detachable := check_detachable g q in
  let shape := check_shape g q in
  let walls := check_walls g q in
  let location := check_location g q in
  let texture := check_texture g q in
  alignment && cells && color && detachable && shape && walls && location
  && texture.

(** ** Query/filter state coordinator *)

(** The state hooks of the page ([galls], [query]) and the values held by the
    filter form, which [filterReset] empties. *)
Record State := {
  galls : list Gall;
  query : SearchQuery;
  filterForm : gmap string qval
}.

(** [useState(new Array<Gall>())], [useState(router.query)], [useForm()] *)
Definition initial (routerQuery : SearchQuery) : State :=
  {| galls := []; query := routerQuery; filterForm := ∅ |}.

(** [v.length > 0] *)
Definition nonempty (v : qval) : bool :=
  match v with
  | QStr s => negb (Nat.eqb (String.length s) 0)
  | QArr l => negb (Nat.eqb (length l) 0)
  end.

(** [v[0]], taken only when [v.length > 0]: the first element of an array,
    the first character of a string. *)
Definition first (v : qval) : qval :=
  match v with
  | QArr (x :: _) => QStr x
  | QStr (String c _) => QStr (String c EmptyString)
  | _ => v
  end.

Definition updateQuery (query : SearchQuery) (f : string) (v : qval)
    : SearchQuery :=
  let qq := query in
  let value :=
    if negb (String.eqb f "locations") && negb (String.eqb f "textures")
       && nonempty v
    then first v else v in
  <[f := value]> qq.

(** The outcome of [fetch] as the handler sees it: the promise rejects, or a
    response arrives with a status, a body that [res.json()] may or may not
    parse into records, and its text. *)
Inductive FetchResult :=
| Rejected
| Response (status : Z) (json : option (list Gall)) (text : string).

(** The submitted root form; a field left out is [undefined]. *)
Record SearchFormFields := {
  host : option string;
  genus : option string
}.

(** [`${x}`] for a field of the form. *)
Definition interpolate (x : option string) : string :=
  match x with Some s => s | None => "undefined" end.

(** [host ? `?host=${host}` : `?genus=${genus}`] behind the path of the
    search endpoint. *)
Definition search_url (fields : SearchFormFields) : string :=
  "../api/search" +:+
  (if match host fields with Some h => str_truthy h | None => false end
   then "?host=" +:+ interpolate (host fields)
   else "?genus=" +:+ interpolate (genus fields)).

Definition filterReset (s : State) : State :=
  {| galls := galls s; query := query s; filterForm := ∅ |}.

Definition setGalls (gs : list Gall) (s : State) : State :=
  {| galls := gs; query := query s; filterForm := filterForm s |}.

Definition setQuery (q : SearchQuery) (s : State) : State :=
  {| galls := galls s; query := q; filterForm := filterForm s |}.

(** The handler of the root form.  Whatever is thrown inside [try] (a
    rejected fetch, a body that does not parse, the error raised for a
    status other than 200) is caught and logged, so the state is the one
    reached when it was thrown. *)
Definition onSubmit (s : State) (fields : SearchFormFields)
    (fetch : string -> FetchResult) : State :=
  let s1 := filterReset s in
  match fetch (search_url fields) with
  | Rejected => s1
  | Response status json _ =>
      if status =? 200
      then match json with
           | Some gs => setGalls gs s1
           | None => s1
           end
      else s1
  end.

(** The handler of every facet control. *)
Definition doSearch (s : State) (field : string) (value : qval) : State :=
  let newq := updateQuery (query s) field value in
  let filtered := List.filter (fun g => checkGall g newq) (galls s) in
  setQuery newq (setGalls filtered s).

(** ** Traces of user interactions *)

Inductive event :=
| RootSubmit (fields : SearchFormFields) (fetch : string -> FetchResult)
| FacetEdit (field : string) (value : qval).

Definition step (s : State) (e : event) : State :=
  match e with
  | RootSubmit fields fetch => onSubmit s fields fetch
  | FacetEdit field value => doSearch s field value
  end.

Definition run (s : State) (es : list event) : State := fold_left step es s.

(** A run of facet edits only, each given as a field and a value. *)
Definition edits (s : State) (fvs : list (string * qval)) : State :=
  fold_left (fun s fv => doSearch s fv.1 fv.2) fvs s.

(** The superset a root submission delivers, when it succeeds. *)
Definition fetched (fields : SearchFormFields) (fetch : string -> FetchResult)
    : option (list Gall) :=
  match fetch (search_url fields) with
  | Response status (Some gs) _ => if status =? 200 then Some gs else None
  | _ => None
  end.

(** The superset of the most recent successful root fetch of a trace, [base]
    when there is none. *)
Fixpoint last_superset (base : list Gall) (es : list event) : list Gall :=
  match es with
  | [] => base
  | RootSubmit fields fetch :: es' =>
      last_superset (default base (fetched fields fetch)) es'
  | FacetEdit _ _ :: es' => last_superset base es'
  end.

(** ** Sample records *)

Definition loc (s : string) : option GallLocation :=
  Some {| gl_location := Some {| location_location := Some s |} |}.

Definition sample (id : Z) (c : option string) (d : option Z)
    (locs : list string) : Gall :=
  {| g_id := id;
     g_alignment := None;
     g_cells := None;
     g_color := (fun s => {| color_color := Some s |}) <$> c;
     g_detachable := d;
     g_shape := None;
     g_walls := None;
     g_galllocation := Some (loc <$> locs);
     g_galltexture := Some [] |}.

Definition gall1 := sample 1 (Some "green") (Some 1) ["stem"].
Definition gall2 := sample 2 (Some "brown") (Some 0) ["leaf"].
Definition gall3 := sample 3 (Some "green") None ["leaf"].
Definition gall4 := sample 4 None (Some 1) ["stem"; "leaf"].

(** A server that answers every root query with the same records. *)
Definition serve (gs : list Gall) : string -> FetchResult :=
  fun _ => Response 200 (Some gs) "".

Definition by_host (h : string) : SearchFormFields :=
  {| host := Some h; genus := None |}.

(** ** The facets as a table

    The eight checks of [checkGall] indexed by facet, with the key of the
    query object each one reads. *)
Inductive facet :=
| Alignment | Cells | Color | Detachable | Shape | Walls | Locations | Textures.

Definition all_facets : list facet :=
  [Alignment; Cells; Color; Detachable; Shape; Walls; Locations; Textures].

Definition key (f : facet) : string :=
  match f with
  | Alignment => "alignment"
  | Cells => "cells"
  | Color => "color"
  | Detachable => "detachable"
  | Shape => "shape"
  | Walls => "walls"
  | Locations => "locations"
  | Textures => "textures"
  end.

Definition check (f : facet) : Gall -> SearchQuery -> bool :=
  match f with
  | Alignment => check_alignment
  | Cells => check_cells
  | Color => check_color
  | Detachable => check_detachable
  | Shape => check_shape
  | Walls => check_walls
  | Locations => check_location
  | Textures => check_texture
  end.

Definition single (f : facet) : bool :=
  match f with Locations | Textures => false | _ => true end.

(** The record holds no value for a single-valued facet: the row is [null],
    or its label is. *)
Definition null_value (f : facet) (g : Gall) : bool :=
  match f with
  | Alignment => negb (present (g_alignment g ≫= alignment_alignment))
  | Cells => negb (present (g_cells g ≫= cells_cells))
  | Color => negb (present (g_color g ≫= color_color))
  | Detachable => negb (present (g_detachable g))
  | Shape => negb (present (g_shape g ≫= shape_shape))
  | Walls => negb (present (g_walls g ≫= walls_walls))
  | Locations => negb (present (g_galllocation g))
  | Textures => negb (present (g_galltexture g))
  end.

(** The tags a record carries for a multi-valued facet, [None] when the
    sequence itself is [null]; an element without a tag contributes [None]. *)
Definition tags (f : facet) (g : Gall) : option (list (option string)) :=
  match f with
  | Locations => fmap (M := list) location_tag <$> g_galllocation g
  | Textures => fmap (M := list) texture_tag <$> g_galltexture g
  | _ => None
  end.

(** The any-of reading of a multi-valued facet in the words of the
    specification: the test is true iff the sequence is not [null] and the
    tag of one of its elements is in the query sequence. *)
Definition any_of (f : facet) (g : Gall) (q : SearchQuery) (l : list string)
    : Prop :=
  check f g q = true <->
  exists ts, tags f g = Some ts /\ exists t, Some t ∈ ts /\ t ∈ l.

(** A record whose only location tag is the empty string. *)
Definition blank_gall : Gall :=
  sample 5 None None [""].

(** A root fetch fails: the request is rejected, the status is not 200, or
    [res.json()] throws on the body. *)
Definition failed (r : FetchResult) : bool :=
  match r with
  | Rejected => true
  | Response status json _ => negb (status =? 200) || negb (present json)
  end.

(** States of a sample session: the superset of a first root query, the same
    filtered on the colour green, and a second root query submitted from
    there. *)
Definition loaded : State :=
  onSubmit (initial ∅) (by_host "Quercus alba") (serve [gall1; gall2; gall3]).

Definition filtered : State := doSearch loaded "color" (QArr ["green"]).

Definition resubmitted : State :=
  onSubmit filtered (by_host "Acer rubrum") (serve [gall2; gall4]).

(** The label a record offers to the test of a single-valued facet: the
    label of its row, and for detachability the label of a code that is
    neither [null] nor 0. *)
Definition label (f : facet) (g : Gall) : option string :=
  match f with
  | Alignment => g_alignment g ≫= alignment_alignment
  | Cells => g_cells g ≫= cells_cells
  | Color => g_color g ≫= color_color
  | Detachable =>
      if num_truthy (g_detachable g)
      then Some (detachable_label (g_detachable g))
      else None
  | Shape => g_shape g ≫= shape_shape
  | Walls => g_walls g ≫= walls_walls
  | Locations | Textures => None
  end.

(** ** What the page shows *)

(** [g.species] as far as the page reads it: a name and a nullable
    description. *)
Record Species := {
  sp_name : string;
  sp_description : option string
}.

(** [gallDescription]; the argument is the [species] field of the record,
    the only part of it the function reads. *)
Definition gallDescription (species : option Species) : string :=
  match species with
  | Some sp =>
      match sp_description sp with
      | Some d =>
          if str_truthy d
          then if (400 <? String.length d)%nat
               then String.substring 0 400 d +:+ "..."
               else d
          else ""
      | None => ""
      end
  | None => ""
  end.

(** The result pane: the hint to begin with a host or genus, the notice
    that nothing matches the filter, or the list of records. *)
Inductive View :=
| BeginHint
| NoMatch
| Results (items : list Gall).

(** [galls.length == 0 ? (query.host == undefined ? ... : ...) : galls.map] *)
Definition view (s : State) : View :=
  if Nat.eqb (length (galls s)) 0
  then match query s !! "host" with
       | None => BeginHint
       | Some _ => NoMatch
       end
  else Results (galls s).

(** The [disabled] prop [makeFormInput] gives every facet control:
    [!(galls.length > 0)]. *)
Definition filters_disabled (s : State) : bool :=
  negb (0 <? length (galls s))%nat.

(** Every displayed record satisfies the stored query. *)
Definition consistent (s : State) : bool :=
  forallb (fun g => checkGall g (query s)) (galls s).

(** Every edit of a run sets a facet the query leaves unconstrained at that
    point. *)
Fixpoint tightening (q : SearchQuery) (fvs : list (string * qval)) : bool :=
  match fvs with
  | [] => true
  | (f, v) :: fvs' => dontCare (q !! f) && tightening (updateQuery q f v) fvs'
  end.

(** The selector a root form stands for in its request: the host when it is
    a non-empty string, the interpolated genus otherwise. *)
Definition selector (fields : SearchFormFields) : string + string :=
  match host fields with
  | Some h => if str_truthy h then inl h else inr (interpolate (genus fields))
  | None => inr (interpolate (genus fields))
  end.

(** No facet edit of the trace is on the key [host]. *)
Definition off_host (e : event) : bool :=
  match e with
  | RootSubmit _ _ => true
  | FacetEdit f _ => negb (String.eqb f "host")
  end.

(** ** The host form (pages/admin/host.tsx) *)

Module HostAdmin.

Import Stdlib.Strings.Ascii.

(** [s.split(' ')]: the pieces between single spaces, never an empty list. *)
Fixpoint split_space (s : string) : list string :=
  match s with
  | EmptyString => [EmptyString]
  | String c s' =>
      if Ascii.eqb c " "%char
      then EmptyString :: split_space s'
      else match split_space s' with
           | w :: ws => String c w :: ws
           | [] => [String c EmptyString]
           end
  end.

(** [n.split(' ')[0]] *)
Definition extractGenus (n : string) : string :=
  hd EmptyString (split_space n).

(** The character classes [[A-Z]] and [[a-z]]. *)
Definition is_upper (c : Ascii.ascii) : bool :=
  (65 <=? Ascii.nat_of_ascii c)%nat && (Ascii.nat_of_ascii c <=? 90)%nat.

Definition is_lower (c : Ascii.ascii) : bool :=
  (97 <=? Ascii.nat_of_ascii c)%nat && (Ascii.nat_of_ascii c <=? 122)%nat.

(** [[a-z]+$] at the start of [s] *)
Fixpoint lowers_end (s : string) : bool :=
  match s with
  | EmptyString => false
  | String c s' =>
      is_lower c && match s' with EmptyString => true | _ => lowers_end s' end
  end.

(** [[a-z]+ [a-z]+$] at the start of [s] *)
Fixpoint lowers_space_lowers (s : string) : bool :=
  match s with
  | EmptyString => false
  | String c s' =>
      is_lower c &&
      match s' with
      | String " "%char e => lowers_end e
      | _ => lowers_space_lowers s'
      end
  end.

(** [[A-Z][a-z]+ [a-z]+$] at the start of [s] *)
Definition binomial_at (s : string) : bool :=
  match s with
  | EmptyString => false
  | String c s' => is_upper c && lowers_space_lowers s'
  end.

(** The pattern of the name field of [Schema],
    [/([A-Z][a-z]+ [a-z]+$)/], tested against [s]: it is not anchored on
    the left, so a match may start anywhere. *)
Fixpoint name_matches (s : string) : bool :=
  binomial_at s ||
  match s with
  | EmptyString => false
  | String _ s' => name_matches s'
  end.

(** A string of lower-case letters. *)
Fixpoint all_lower (s : string) : bool :=
  match s with
  | EmptyString => true
  | String c s' => is_lower c && all_lower s'
  end.

(** The rows of [hosts] and the submitted form, as far as the handler reads
    them. *)
Record species := { id : Z; name : string }.

Record SpeciesUpsertFields := {
  f_name : string;
  f_delete : bool
}.

Record DeleteResult := { deleted_name : string }.

Inductive request :=
| DELETE (url : string)
| POST (url : string) (body : SpeciesUpsertFields).

Record response := {
  status : Z;
  json : option DeleteResult;
  text : string;
  url : string
}.

(** The state hooks of the page, the values of the form and the addresses
    pushed on the router. *)
Record State := {
  existing : bool;
  deleteResults : option DeleteResult;
  form : gmap string string;
  pushed : list string
}.

(** [`${id}`] for [id : number | undefined] *)
Definition interpolate_id (i : option Z) : string :=
  match i with Some k => pretty k | None => "undefined" end.

(** [hosts.find((h) => h.name === data.name)?.id] *)
Definition find_id (hosts : list species) (data : SpeciesUpsertFields)
    : option Z :=
  id <$> List.find (fun h => String.eqb (name h) (f_name data)) hosts.

(** The request the handler sends. *)
Definition request_of (hosts : list species) (data : SpeciesUpsertFields)
    : request :=
  if f_delete data
  then DELETE ("../api/host/" +:+ interpolate_id (find_id hosts data))
  else POST "../api/host/upsert" data.

Definition setDeleteResults (r : DeleteResult) (s : State) : State :=
  {| existing := existing s; deleteResults := Some r; form := form s;
     pushed := pushed s |}.

Definition push (u : string) (s : State) : State :=
  {| existing := existing s; deleteResults := deleteResults s;
     form := form s; pushed := pushed s ++ [u] |}.

Definition reset (s : State) : State :=
  {| existing := existing s; deleteResults := deleteResults s; form := ∅;
     pushed := pushed s |}.

(** The submit handler; [fetch] answers [None] when the request is
    rejected.  Everything thrown is caught and logged, and [reset()] is the
    last statement inside [try]. *)
Definition onSubmit (hosts : list species) (s : State)
    (data : SpeciesUpsertFields) (fetch : request -> option response)
    : State :=
  if f_delete data
  then
    let id := find_id hosts data in
    match fetch (DELETE ("../api/host/" +:+ interpolate_id id)) with
    | None => s
    | Some res =>
        if status res =? 200
        then match json res with
             | Some r => reset (setDeleteResults r s)
             | None => s
             end
        else s
    end
  else
    match fetch (POST "../api/host/upsert" data) with
    | None => s
    | Some res =>
        if status res =? 200
        then reset (push (url res) s)
        else s
    end.

(** The request succeeded as far as the handler is concerned. *)
Definition succeeded (data : SpeciesUpsertFields) (r : option response)
    : bool :=
  match r with
  | None => false
  | Some res =>
      (status res =? 200) && (negb (f_delete data) || present (json res))
  end.

End HostAdmin.

(** ** The host links of a gall (pages/gall/[id]/index.tsx) *)

Module GallPage.





End GallPage.

(** ** The taxonomy tree of a family (pages/family/[id]/index.tsx) *)

Module FamilyPage.

Record species := { id : Z; name : string; taxoncode : option string }.
Record speciestaxonomy := { st_species : species }.
Record taxonomy := {
  t_id : Z;
  t_name : string;
  t_speciestaxonomy : list speciestaxonomy
}.
Record TaxonomyTree := {
  tree_id : Z;
  tree_name : string;
  tree_taxonomy : list taxonomy
}.

Local Unset Elimination Schemes.

(** [TreeNodeInArray], with the optional properties the page fills in. *)
Inductive TreeNodeInArray :=
| TreeNode (key label : string) (nodes : option (list TreeNodeInArray))
    (url : option string).

Local Set Elimination Schemes.

Definition node_key (n : TreeNodeInArray) : string :=
  match n with TreeNode k _ _ _ => k end.
Definition node_label (n : TreeNodeInArray) : string :=
  match n with TreeNode _ l _ _ => l end.
Definition node_nodes (n : TreeNodeInArray) : list TreeNodeInArray :=
  match n with TreeNode _ _ ns _ => default [] ns end.
Definition node_url (n : TreeNodeInArray) : option string :=
  match n with TreeNode _ _ _ u => u end.

Section Tree.

(** [a.localeCompare(b)], which depends on the locale of the server, and the
    constant [GallTaxon] of [libs/api/apitypes]. *)
Variable localeCompare : string -> string -> Z.
Variable GallTaxon : string.

(** [st.species.taxoncode === GallTaxon] for a nullable code. *)
Definition is_gall (sp : species) : bool :=
  match taxoncode sp with
  | Some c => String.eqb c GallTaxon
  | None => false
  end.

(** [xs.sort((a, b) => by(a).localeCompare(by(b)))]: for a consistent
    comparator, as [localeCompare] is, the array ends up in the one stable
    sorted arrangement, which insertion from the right computes. *)
Fixpoint insert_by {A} (by_name : A -> string) (x : A) (l : list A) : list A :=
  match l with
  | [] => [x]
  | y :: l' =>
      if localeCompare (by_name x) (by_name y) <=? 0
      then x :: y :: l'
      else y :: insert_by by_name x l'
  end.

Definition sort_by {A} (by_name : A -> string) (l : list A) : list A :=
  foldr (insert_by by_name) [] l.

Definition species_node (st : speciestaxonomy) : TreeNodeInArray :=
  TreeNode (pretty (id (st_species st))) (name (st_species st)) None
    (Some ("/" +:+
           (if is_gall (st_species st) then "gall" else "host") +:+
           "/" +:+ pretty (id (st_species st)))).

Definition taxon_node (tt : taxonomy) : TreeNodeInArray :=
  TreeNode (pretty (t_id tt)) (t_name tt)
    (Some (species_node <$>
           sort_by (fun st => name (st_species st)) (t_speciestaxonomy tt)))
    None.

Definition toTreeNodeInArray (tree : TaxonomyTree) : list TreeNodeInArray :=
  [ TreeNode (pretty (tree_id tree)) (tree_name tree)
      (Some (taxon_node <$> sort_by t_name (tree_taxonomy tree)))
      None ].

End Tree.

End FamilyPage.

(** ** Sample data of the other pages *)

Definition sample_host_state : HostAdmin.State :=
  {| HostAdmin.existing := true;
     HostAdmin.deleteResults := None;
     HostAdmin.form := {[ "name" := "Quercus alba" ]};
     HostAdmin.pushed := [] |}.

Definition sample_hosts : list HostAdmin.species :=
  [ {| HostAdmin.id := 7; HostAdmin.name := "Quercus alba" |};
    {| HostAdmin.id := 9; HostAdmin.name := "Acer rubrum" |} ].

Definition delete_of (n : string) : HostAdmin.SpeciesUpsertFields :=
  {| HostAdmin.f_name := n; HostAdmin.f_delete := true |}.

Definition upsert_of (n : string) : HostAdmin.SpeciesUpsertFields :=
  {| HostAdmin.f_name := n; HostAdmin.f_delete := false |}.

Definition answer (st : Z) (r : option HostAdmin.DeleteResult) (u : string)
    : HostAdmin.request -> option HostAdmin.response :=
  fun _ => Some {| HostAdmin.status := st; HostAdmin.json := r;
                   HostAdmin.text := ""; HostAdmin.url := u |}.


(** A comparator for the samples: shorter names first. *)
Definition by_length (a b : string) : Z :=
  Z.of_nat (String.length a) - Z.of_nat (String.length b).

Definition sample_taxon : FamilyPage.taxonomy :=
  {| FamilyPage.t_id := 10; FamilyPage.t_name := "Andricus";
     FamilyPage.t_speciestaxonomy :=
       [ {| FamilyPage.st_species :=
              {| FamilyPage.id := 42;
                 FamilyPage.name := "Andricus weldi";
                 FamilyPage.taxoncode := Some "gall" |} |};
         {| FamilyPage.st_species :=
              {| FamilyPage.id := 43;
                 FamilyPage.name := "Quercus alba";
                 FamilyPage.taxoncode := None |} |} ] |}.

Definition sample_tree : FamilyPage.TaxonomyTree :=
  {| FamilyPage.tree_id := 1;
     FamilyPage.tree_name := "Cynipidae";
     FamilyPage.tree_taxonomy :=
       [ {| FamilyPage.t_id := 20; FamilyPage.t_name := "Callirhytis";
            FamilyPage.t_speciestaxonomy := [] |};
         sample_taxon ] |}.

(** ** Basic facts *)

Lemma dontCare_cases (o : option qval) :
  dontCare o = true <-> o = None \/ o = Some (QStr "") \/ o = Some (QArr []).
Proof.
  split.
  - destruct o as [[[|c s]|[|x l]]|]; cbn; intros H; try discriminate; auto.
  - intros [-> | [-> | ->]]; reflexivity.
Qed.

Lemma checkGall_forallb (g : Gall) (q : SearchQuery) :
  checkGall g q = forallb (fun f => check f g q) all_facets.
Proof.
  unfold checkGall; cbn.
  rewrite andb_true_r, !andb_assoc. reflexivity.
Qed.

Lemma checkGall_facet (f : facet) (g : Gall) (q : SearchQuery) :
  check f g q = false -> checkGall g q = false.
Proof.
  intros H. rewrite checkGall_forallb.
  apply not_true_is_false. intros Hall.
  rewrite forallb_forall in Hall.
  assert (Hin : In f all_facets) by (destruct f; cbn; tauto).
  specialize (Hall f Hin). congruence.
Qed.

Lemma check_dontCare (f : facet) (g : Gall) (q : SearchQuery) :
  dontCare (q !! key f) = true -> check f g q = true.
Proof.
  intros H.
  destruct f; cbn in *;
    unfold check_alignment, check_cells, check_color, check_detachable,
      check_shape, check_walls, check_location, check_texture;
    rewrite H; reflexivity.
Qed.

Lemma filter_sublist {A} (p : A -> bool) (l : list A) :
  List.filter p l `sublist_of` l.
Proof.
  induction l as [|x l IH]; cbn.
  - constructor.
  - destruct (p x); [apply sublist_skip | apply sublist_cons]; exact IH.
Qed.

Lemma doSearch_galls (s : State) (f : string) (v : qval) :
  galls (doSearch s f v)
  = List.filter (fun g => checkGall g (updateQuery (query s) f v)) (galls s).
Proof. reflexivity. Qed.

Lemma doSearch_sublist (s : State) (f : string) (v : qval) :
  galls (doSearch s f v) `sublist_of` galls s.
Proof. rewrite doSearch_galls. apply filter_sublist. Qed.

Lemma edits_snoc (s : State) (fvs : list (string * qval)) (f : string)
    (v : qval) :
  edits s (fvs ++ [(f, v)]) = doSearch (edits s fvs) f v.
Proof. unfold edits. rewrite fold_left_app. reflexivity. Qed.

Lemma edits_sublist (fvs : list (string * qval)) (s : State) :
  galls (edits s fvs) `sublist_of` galls s.
Proof.
  revert s. induction fvs as [|[f v] fvs IH]; intros s; cbn.
  - reflexivity.
  - etrans; [apply IH | apply doSearch_sublist].
Qed.

Lemma onSubmit_query (s : State) (fields : SearchFormFields)
    (fetch : string -> FetchResult) :
  query (onSubmit s fields fetch) = query s.
Proof.
  unfold onSubmit.
  destruct (fetch (search_url fields)) as [|status [gs|] text];
    [reflexivity | destruct (status =? 200); reflexivity ..].
Qed.

Lemma onSubmit_galls (s : State) (fields : SearchFormFields)
    (fetch : string -> FetchResult) :
  galls (onSubmit s fields fetch)
  = default (galls s) (fetched fields fetch).
Proof.
  unfold onSubmit, fetched.
  destruct (fetch (search_url fields)) as [|status [gs|] text];
    [reflexivity | destruct (status =? 200); reflexivity ..].
Qed.

(** ** Predicate evaluator: don't-care and single-valued facets *)

(** C5: a query value is don't-care exactly when it is absent, the empty
    string or the empty sequence; a don't-care value makes the test of its
    facet true for every record, and a query whose eight facet values are
    all don't-care matches every record. *)
Theorem dontCare_matches_all (g : Gall) (q : SearchQuery) :
  (forall o, dontCare o = true <->
             o = None \/ o = Some (QStr "") \/ o = Some (QArr [])) /\
  (forall f, dontCare (q !! key f) = true -> check f g q = true) /\
  ((forall f, dontCare (q !! key f) = true) -> checkGall g q = true).
Proof.
  split; [exact dontCare_cases |].
  split; [intros f; apply check_dontCare |].
  intros Hall. rewrite checkGall_forallb.
  apply forallb_forall. intros f _. apply check_dontCare, Hall.
Qed.

Lemma dontCare_matches_all_witness :
  check Color gall2 {[ "color" := QArr [] ]} = true /\
  checkGall gall2 (∅ : SearchQuery) = true.
Proof.
  destruct (dontCare_matches_all gall2 {[ "color" := QArr [] ]})
    as (_ & Hone & _).
  destruct (dontCare_matches_all gall2 ∅) as (_ & _ & Hall).
  split.
  - apply Hone. reflexivity.
  - apply Hall. intros f. destruct f; reflexivity.
Defined.

(** C7: when the record holds no value for a single-valued facet and the
    query constrains that facet, the test of the facet is false, and so the
    record does not match the query. *)
Theorem null_value_never_matches (f : facet) (g : Gall) (q : SearchQuery) :
  single f = true ->
  null_value f g = true ->
  dontCare (q !! key f) = false ->
  check f g q = false /\ checkGall g q = false.
Proof.
  intros Hs Hnull Hq.
  assert (Hc : check f g q = false).
  { destruct f; try discriminate Hs; cbn in *;
      unfold check_alignment, check_cells, check_color, check_detachable,
        check_shape, check_walls;
      rewrite Hq; cbn.
    - destruct (g_alignment g) as [a|]; [|reflexivity]; cbn in *.
      destruct (alignment_alignment a); [discriminate | reflexivity].
    - destruct (g_cells g) as [a|]; [|reflexivity]; cbn in *.
      destruct (cells_cells a); [discriminate | reflexivity].
    - destruct (g_color g) as [a|]; [|reflexivity]; cbn in *.
      destruct (color_color a); [discriminate | reflexivity].
    - destruct (g_detachable g); [discriminate | reflexivity].
    - destruct (g_shape g) as [a|]; [|reflexivity]; cbn in *.
      destruct (shape_shape a); [discriminate | reflexivity].
    - destruct (g_walls g) as [a|]; [|reflexivity]; cbn in *.
      destruct (walls_walls a); [discriminate | reflexivity]. }
  split; [exact Hc | exact (checkGall_facet f g q Hc)].
Qed.

Lemma null_value_never_matches_witness :
  check Color gall4 {[ "color" := QStr "green" ]} = false /\
  checkGall gall4 {[ "color" := QStr "green" ]} = false.
Proof.
  apply (null_value_never_matches Color gall4 {[ "color" := QStr "green" ]});
    reflexivity.
Defined.

Lemma strict_eq_label (s : string) (o : option qval) :
  strict_eq (Some s) o = true <-> o = Some (QStr s).
Proof.
  destruct o as [[t|l]|]; cbn; try (split; [discriminate | congruence]).
  rewrite String.eqb_eq. split; congruence.
Qed.

Lemma check_detachable_true (g : Gall) (q : SearchQuery) :
  dontCare (q !! "detachable") = false ->
  check_detachable g q = true <->
  (exists n, g_detachable g = Some n /\ n <> 0) /\
  q !! "detachable" = Some (QStr "yes").
Proof.
  intros Hq. unfold check_detachable.
  rewrite Hq, orb_false_l, andb_true_iff, strict_eq_label.
  destruct (g_detachable g) as [n|].
  - unfold num_truthy. destruct (Z.eqb_spec n 0) as [->|Hn].
    + split; [intros [? _]; discriminate | intros [(n & Hn & Hne) _]].
      inversion Hn; subst. contradiction.
    + assert (Hl : detachable_label (Some n) = "yes")
        by (destruct n; [contradiction | reflexivity ..]).
      rewrite Hl. split.
      * intros [_ H]. split; [exists n; auto | exact H].
      * intros [_ H]. split; [reflexivity | exact H].
  - split; [intros [? _]; discriminate | intros [(n & Hn & _) _]].
    discriminate.
Qed.

(** C9: under a constrained detachable query the test of the facet is true
    exactly when the record's code is neither [null] nor 0 and the query
    value is the string 'yes'; a record with code 0 fails every constrained
    detachable query, and the values 'no' and 'unsure' leave no record of
    any displayed set. *)
Theorem detachable_only_yes (g : Gall) (q : SearchQuery) :
  dontCare (q !! "detachable") = false ->
  (check_detachable g q = true <->
   (exists n, g_detachable g = Some n /\ n <> 0) /\
   q !! "detachable" = Some (QStr "yes")) /\
  (g_detachable g = Some 0 -> check_detachable g q = false) /\
  (q !! "detachable" = Some (QStr "no") \/
   q !! "detachable" = Some (QStr "unsure") ->
   forall gs, List.filter (fun g' => checkGall g' q) gs = []).
Proof.
  intros Hq. split; [exact (check_detachable_true g q Hq) |]. split.
  - intros H0. apply not_true_is_false. intros Ht.
    apply (check_detachable_true g q Hq) in Ht as [(n & Hn & Hne) _].
    congruence.
  - intros Hv gs. induction gs as [|g' gs IH]; [reflexivity |]. cbn.
    rewrite (checkGall_facet Detachable g' q); [exact IH |].
    apply not_true_is_false. intros Ht.
    apply (check_detachable_true g' q Hq) in Ht as [_ Hyes].
    destruct Hv as [Hv | Hv]; rewrite Hv in Hyes; discriminate.
Qed.

Lemma detachable_only_yes_witness :
  (check_detachable gall2 {[ "detachable" := QStr "no" ]} = true <->
   (exists n, g_detachable gall2 = Some n /\ n <> 0) /\
   ({[ "detachable" := QStr "no" ]} : SearchQuery) !! "detachable"
   = Some (QStr "yes")) /\
  check_detachable gall2 {[ "detachable" := QStr "no" ]} = false /\
  List.filter (fun g' => checkGall g' {[ "detachable" := QStr "no" ]})
    [gall1; gall2; gall3; gall4] = [].
Proof.
  destruct (detachable_only_yes gall2 {[ "detachable" := QStr "no" ]})
    as (H1 & H2 & H3); [reflexivity |].
  split; [exact H1 |]. split; [apply H2; reflexivity |].
  apply H3. left. reflexivity.
Defined.

(** C3, evaluated on the code: a record with detachable code 0, whose label
    is 'no', does not satisfy the query value 'no'; the truthiness guard on
    the code rejects 0 before the label is compared. *)
Theorem detachable_zero_fails_no :
  g_detachable gall2 = Some 0 /\
  detachable_label (g_detachable gall2) = "no" /\
  check_detachable gall2 {[ "detachable" := QStr "no" ]} = false /\
  galls (doSearch {| galls := [gall2]; query := ∅; filterForm := ∅ |}
           "detachable" (QArr ["no"])) = [].
Proof. repeat split; vm_compute; reflexivity. Qed.

(** ** Predicate evaluator: multi-valued facets *)

Lemma tag_hit_arr (tag : option string) (l : list string) :
  tag_hit tag (QArr l) = true <->
  exists t, tag = Some t /\ t <> "" /\ t ∈ l.
Proof.
  destruct tag as [t|]; cbn.
  - rewrite andb_true_iff, existsb_exists. split.
    + intros [Ht (x & Hx & Heq)]. apply String.eqb_eq in Heq. subst x.
      exists t. repeat split.
      * intros ->. discriminate Ht.
      * apply list_elem_of_In, Hx.
    + intros (t' & Heq & Hne & Hin). inversion Heq; subst t'. split.
      * destruct t; [contradiction | reflexivity].
      * exists t. split; [apply list_elem_of_In, Hin | apply String.eqb_refl].
  - split; [discriminate | intros (t & Heq & _); discriminate].
Qed.

Lemma existsb_tag_hit {A} (tag : A -> option string) (xs : list A)
    (l : list string) :
  existsb (fun x => tag_hit (tag x) (QArr l)) xs = true <->
  exists t, Some t ∈ tag <$> xs /\ t <> "" /\ t ∈ l.
Proof.
  rewrite existsb_exists. split.
  - intros (x & Hx & Hhit). apply tag_hit_arr in Hhit as (t & Ht & Hne & Hin).
    exists t. repeat split; [| exact Hne | exact Hin].
    apply list_elem_of_fmap. exists x.
    split; [symmetry; exact Ht | apply list_elem_of_In, Hx].
  - intros (t & Hmem & Hne & Hin).
    apply list_elem_of_fmap in Hmem as (x & Ht & Hx).
    exists x. split; [apply list_elem_of_In, Hx |].
    apply tag_hit_arr. exists t. auto.
Qed.

Lemma dontCare_nonempty_arr (l : list string) :
  l <> [] -> dontCare (Some (QArr l)) = false.
Proof. destruct l; [contradiction | reflexivity]. Qed.

(** C6, as amended: for a multi-valued facet and a non-empty query sequence
    the test is true iff the record's sequence is not [null] and one of its
    elements has a non-empty tag that is in the query sequence. *)
Theorem multi_facet_any_of (f : facet) (g : Gall) (q : SearchQuery)
    (l : list string) :
  single f = false ->
  q !! key f = Some (QArr l) ->
  l <> [] ->
  check f g q = true <->
  exists ts, tags f g = Some ts /\
             exists t, Some t ∈ ts /\ t <> "" /\ t ∈ l.
Proof.
  intros Hm Hq Hl.
  destruct f; try discriminate Hm; cbn in Hq |- *.
  - unfold check_location, checkLocations.
    rewrite Hq, (dontCare_nonempty_arr l Hl), orb_false_l.
    destruct (g_galllocation g) as [gps|]; cbn.
    + rewrite existsb_tag_hit. split.
      * intros H. exists (location_tag <$> gps). split; [reflexivity | exact H].
      * intros (ts & Hts & H). inversion Hts; subst ts. exact H.
    + split; [discriminate | intros (ts & Hts & _); discriminate].
  - unfold check_texture, checkTextures.
    rewrite Hq, (dontCare_nonempty_arr l Hl), orb_false_l.
    destruct (g_galltexture g) as [gps|]; cbn.
    + rewrite existsb_tag_hit. split.
      * intros H. exists (texture_tag <$> gps). split; [reflexivity | exact H].
      * intros (ts & Hts & H). inversion Hts; subst ts. exact H.
    + split; [discriminate | intros (ts & Hts & _); discriminate].
Qed.

Lemma multi_facet_any_of_witness :
  check Locations gall4 {[ "locations" := QArr ["leaf"; "root"] ]} = true <->
  exists ts, tags Locations gall4 = Some ts /\
             exists t, Some t ∈ ts /\ t <> "" /\ t ∈ ["leaf"; "root"].
Proof.
  apply (multi_facet_any_of Locations gall4
           {[ "locations" := QArr ["leaf"; "root"] ]} ["leaf"; "root"]).
  - reflexivity.
  - reflexivity.
  - discriminate.
Defined.

(** C6, the claim as written fails: with the empty string as the only tag of
    the record and as the only query value, the tag is in the query sequence
    and the test is false. *)
Lemma blank_tag_not_any_of :
  single Locations = false /\
  ({[ "locations" := QArr [""] ]} : SearchQuery) !! key Locations
  = Some (QArr [""]) /\
  [""] <> ([] : list string) /\
  ~ any_of Locations blank_gall {[ "locations" := QArr [""] ]} [""].
Proof.
  repeat split; try discriminate.
  intros [_ H].
  assert (Hc : check Locations blank_gall {[ "locations" := QArr [""] ]}
               = false) by reflexivity.
  rewrite H in Hc; [discriminate |].
  exists [Some ""]. split; [reflexivity |].
  exists "". split; apply list_elem_of_here.
Qed.

(** The two examples of the specification: tags stem and leaf against the
    queries leaf-or-root and root. *)
Example locations_leaf_or_root :
  checkGall gall4 {[ "locations" := QArr ["leaf"; "root"] ]} = true /\
  checkGall gall4 {[ "locations" := QArr ["root"] ]} = false.
Proof. split; reflexivity. Qed.

(** ** Merging a facet edit into the query *)

(** What [updateQuery] stores at the edited key. *)
Lemma updateQuery_lookup (q : SearchQuery) (f : string) (v : qval) :
  updateQuery q f v !! f
  = Some (if negb (String.eqb f "locations") && negb (String.eqb f "textures")
             && nonempty v
          then first v else v).
Proof. unfold updateQuery. apply lookup_insert_eq. Qed.

Lemma updateQuery_other (q : SearchQuery) (f f' : string) (v : qval) :
  f <> f' -> updateQuery q f v !! f' = q !! f'.
Proof. intros Hne. unfold updateQuery. apply lookup_insert_ne, Hne. Qed.

Lemma updateQuery_again (q : SearchQuery) (f : string) (v1 v2 : qval) :
  updateQuery (updateQuery q f v1) f v2 = updateQuery q f v2.
Proof. unfold updateQuery. apply insert_insert_eq. Qed.

Lemma updateQuery_multi (q : SearchQuery) (f : facet) (v : qval) :
  single f = false -> updateQuery q (key f) v !! key f = Some v.
Proof.
  intros Hm. rewrite updateQuery_lookup.
  destruct f; try discriminate Hm; reflexivity.
Qed.

Lemma updateQuery_first_selection (q : SearchQuery) (f : facet) (x : string)
    (l : list string) :
  single f = true ->
  updateQuery q (key f) (QArr (x :: l)) !! key f = Some (QStr x).
Proof.
  intros Hs. rewrite updateQuery_lookup.
  destruct f; try discriminate Hs; reflexivity.
Qed.

(** For a single-valued facet a typed string is cut to its first character;
    it is stored whole only when it has at most one. *)
Lemma updateQuery_typed (q : SearchQuery) (f : facet) (s : string) :
  single f = true ->
  updateQuery q (key f) (QStr s) !! key f
  = Some (QStr (match s with
                | EmptyString => EmptyString
                | String c _ => String c EmptyString
                end)).
Proof.
  intros Hs. rewrite updateQuery_lookup.
  destruct f; try discriminate Hs; destruct s; reflexivity.
Qed.

(** C4, evaluated on the code: the string green typed into the colour
    control is stored as its first character g, so the green record is
    filtered out by the edit that asks for it. *)
Theorem updateQuery_typed_string_cut :
  updateQuery ∅ "color" (QStr "green") !! "color" = Some (QStr "g") /\
  (g_color gall1 ≫= color_color) = Some "green" /\
  check_color gall1 (updateQuery ∅ "color" (QStr "green")) = false /\
  galls (doSearch {| galls := [gall1]; query := ∅; filterForm := ∅ |}
           "color" (QStr "green")) = [].
Proof. repeat split; vm_compute; reflexivity. Qed.

(** ** Facet edits narrow the displayed set *)

Lemma sublist_not_elem {A} (l1 l2 : list A) (x : A) :
  l1 `sublist_of` l2 -> x ∉ l2 -> x ∉ l1.
Proof. intros Hsub Hx Hin. apply Hx. exact (sublist_subseteq _ _ Hsub x Hin). Qed.

(** C1: a facet edit filters the displayed set it finds, so along any run of
    edits every displayed set is a sublist of the one before; after edits A
    and B, setting A again to any value, a don't-care one included, filters
    the result of B, and a record that A excluded is in no later displayed
    set of the run. *)
Theorem facet_edits_narrow (s : State) (fA fB f : string)
    (vA vB vC v : qval) (fvs : list (string * qval)) :
  let s1 := doSearch s fA vA in
  let s2 := doSearch s1 fB vB in
  let s3 := doSearch s2 fA vC in
  galls (doSearch s f v)
  = List.filter (fun g => checkGall g (updateQuery (query s) f v)) (galls s) /\
  galls (edits s (fvs ++ [(f, v)])) `sublist_of` galls (edits s fvs) /\
  galls s1 `sublist_of` galls s /\
  galls s2 `sublist_of` galls s1 /\
  galls s3 `sublist_of` galls s2 /\
  galls s3
  = List.filter (fun g => checkGall g (updateQuery (query s2) fA vC))
      (galls s2) /\
  (forall g, g ∉ galls s1 ->
             (g ∉ galls s3) /\ (g ∉ galls (edits s1 fvs))).
Proof.
  intros s1 s2 s3.
  split; [reflexivity |].
  split; [rewrite edits_snoc; apply doSearch_sublist |].
  split; [apply doSearch_sublist |].
  split; [apply doSearch_sublist |].
  split; [apply doSearch_sublist |].
  split; [reflexivity |].
  intros g Hg. split.
  - apply (sublist_not_elem _ (galls s1)); [| exact Hg].
    etrans; apply doSearch_sublist.
  - apply (sublist_not_elem _ (galls s1)); [apply edits_sublist | exact Hg].
Qed.

(** The scenario of the specification: green keeps records 1 and 3, leaf
    keeps record 3, and clearing the colour leaves record 3 alone. *)
Example scenario_green_leaf_clear :
  galls loaded = [gall1; gall2; gall3] /\
  galls (doSearch loaded "color" (QArr ["green"])) = [gall1; gall3] /\
  galls (edits loaded [("color", QArr ["green"]);
                       ("locations", QArr ["leaf"])]) = [gall3] /\
  galls (edits loaded [("color", QArr ["green"]);
                       ("locations", QArr ["leaf"]);
                       ("color", QArr [])]) = [gall3].
Proof. repeat split; vm_compute; reflexivity. Qed.

(** ** Root submissions *)

(** C8: when the root fetch fails (the request is rejected, the status is
    not 200, or the body does not parse) the displayed set and the query are
    the ones before the submission. *)
Theorem failed_fetch_keeps_state (s : State) (fields : SearchFormFields)
    (fetch : string -> FetchResult) :
  failed (fetch (search_url fields)) = true ->
  galls (onSubmit s fields fetch) = galls s /\
  query (onSubmit s fields fetch) = query s.
Proof.
  intros Hfail. split; [| apply onSubmit_query].
  rewrite onSubmit_galls. unfold fetched.
  destruct (fetch (search_url fields)) as [|status [gs|] text];
    cbn in Hfail |- *; try reflexivity.
  rewrite orb_false_r in Hfail. apply negb_true_iff in Hfail.
  rewrite Hfail. reflexivity.
Qed.

Lemma failed_fetch_keeps_state_witness :
  galls (onSubmit filtered (by_host "Acer") (fun _ => Response 500 None "down"))
  = [gall1; gall3] /\
  query (onSubmit filtered (by_host "Acer") (fun _ => Response 500 None "down"))
  = {[ "color" := QStr "green" ]}.
Proof.
  apply (failed_fetch_keeps_state filtered (by_host "Acer")
           (fun _ => Response 500 None "down")).
  reflexivity.
Defined.

(** C2, evaluated on the code: a successful resubmission from a state
    filtered on the colour green shows the whole new superset but keeps the
    colour constraint in the query, and the next edit, which clears another
    facet, filters the new superset by the stale colour. *)
Theorem resubmit_keeps_query :
  query filtered = {[ "color" := QStr "green" ]} /\
  galls resubmitted = [gall2; gall4] /\
  query resubmitted = {[ "color" := QStr "green" ]} /\
  dontCare (query resubmitted !! "color") = false /\
  galls (doSearch resubmitted "shape" (QArr [])) = [].
Proof. repeat split; vm_compute; reflexivity. Qed.

(** ** The displayed set and the last superset *)

Lemma run_sublist (es : list event) (s : State) (base : list Gall) :
  galls s `sublist_of` base ->
  galls (run s es) `sublist_of` last_superset base es.
Proof.
  revert s base. induction es as [|e es IH]; intros s base Hs; cbn.
  - exact Hs.
  - destruct e as [fields fetch | f v]; apply IH; cbn.
    + rewrite onSubmit_galls.
      destruct (fetched fields fetch); [reflexivity | exact Hs].
    + etrans; [apply doSearch_sublist | exact Hs].
Qed.

(** C10: after a successful root fetch of a superset, the displayed set
    reached by any run of facet edits is a sublist of that superset; along
    any trace of submissions and edits, from the state the page starts in or
    from a fresh fetch, the displayed set is a sublist of the superset of
    the most recent successful fetch. *)
Theorem displayed_sublist_of_superset (s : State) (fields : SearchFormFields)
    (fetch : string -> FetchResult) (sup : list Gall)
    (fvs : list (string * qval)) (q0 : SearchQuery) (es : list event) :
  fetched fields fetch = Some sup ->
  galls (onSubmit s fields fetch) = sup /\
  galls (edits (onSubmit s fields fetch) fvs) `sublist_of` sup /\
  galls (run (onSubmit s fields fetch) es) `sublist_of` last_superset sup es /\
  galls (run (initial q0) es) `sublist_of` last_superset [] es.
Proof.
  intros Hf.
  assert (Hsup : galls (onSubmit s fields fetch) = sup)
    by (rewrite onSubmit_galls, Hf; reflexivity).
  split; [exact Hsup |].
  split; [etrans; [apply edits_sublist | rewrite Hsup; reflexivity] |].
  split; apply run_sublist; [rewrite Hsup |]; reflexivity.
Qed.

Lemma displayed_sublist_of_superset_witness :
  galls (edits loaded [("color", QArr ["green"]); ("color", QArr [])])
  `sublist_of` [gall1; gall2; gall3].
Proof.
  refine (proj1 (proj2 (displayed_sublist_of_superset (initial ∅)
            (by_host "Quercus alba") (serve [gall1; gall2; gall3])
            [gall1; gall2; gall3]
            [("color", QArr ["green"]); ("color", QArr [])] ∅ [] _))).
  reflexivity.
Defined.

(** ** Further properties of the facet edits *)

Lemma check_ext (k : facet) (g : Gall) (q q' : SearchQuery) :
  q !! key k = q' !! key k -> check k g q = check k g q'.
Proof.
  intros H.
  destruct k; cbn in *;
    unfold check_alignment, check_cells, check_color, check_detachable,
      check_shape, check_walls, check_location, check_texture;
    rewrite H; reflexivity.
Qed.

Lemma checkGall_true (g : Gall) (q : SearchQuery) :
  checkGall g q = true <-> forall k, check k g q = true.
Proof.
  rewrite checkGall_forallb, forallb_forall. split.
  - intros H k. apply H. destruct k; cbn; tauto.
  - intros H k _. apply H.
Qed.

Lemma checkGall_ext (g : Gall) (q q' : SearchQuery) :
  (forall k, q !! key k = q' !! key k) -> checkGall g q = checkGall g q'.
Proof.
  intros H. rewrite !checkGall_forallb.
  induction all_facets as [|k ks IH]; [reflexivity |]. cbn.
  rewrite IH, (check_ext k g q q' (H k)). reflexivity.
Qed.

(** A record that passes the query after an edit of [f] passed the query
    before it, provided it passed the old test of [f]. *)
Lemma checkGall_before_edit (g : Gall) (q : SearchQuery) (f : string)
    (v : qval) :
  (forall k, key k = f -> check k g q = true) ->
  checkGall g (updateQuery q f v) = true -> checkGall g q = true.
Proof.
  intros Hold Hnew. apply checkGall_true. intros k.
  destruct (decide (key k = f)) as [Hk | Hk]; [apply Hold, Hk |].
  rewrite (check_ext k g q (updateQuery q f v)).
  - apply checkGall_true, Hnew.
  - symmetry. apply updateQuery_other. congruence.
Qed.

Lemma filter_filter_implied {A} (p p' : A -> bool) (l : list A) :
  (forall x, In x l -> p' x = true -> p x = true) ->
  List.filter p' (List.filter p l) = List.filter p' l.
Proof.
  intros H. induction l as [|x l IH]; [reflexivity |]. cbn.
  assert (IH' : List.filter p' (List.filter p l) = List.filter p' l)
    by (apply IH; intros y Hy; apply H; right; exact Hy).
  destruct (p x) eqn:Hp; cbn.
  - rewrite IH'. reflexivity.
  - destruct (p' x) eqn:Hp'; [| exact IH'].
    rewrite (H x (or_introl eq_refl) Hp') in Hp. discriminate.
Qed.

(** X1: after a facet edit every displayed record satisfies the stored query. *)
Theorem doSearch_consistent (s : State) (f : string) (v : qval) :
  consistent (doSearch s f v) = true.
Proof.
  unfold consistent. cbn.
  apply (forallb_filter
           (fun g => checkGall g (updateQuery (query s) f v))).
Qed.

(** X2: the same edit made twice in a row changes nothing the second time. *)
Theorem doSearch_idempotent (s : State) (f : string) (v : qval) :
  doSearch (doSearch s f v) f v = doSearch s f v.
Proof.
  unfold doSearch, setQuery, setGalls. cbn.
  rewrite updateQuery_again. f_equal.
  apply forallb_filter_id.
  apply (forallb_filter
           (fun g => checkGall g (updateQuery (query s) f v))).
Qed.

Lemma consistent_In (s : State) (g : Gall) :
  consistent s = true -> In g (galls s) -> checkGall g (query s) = true.
Proof.
  unfold consistent. rewrite forallb_forall. intros H Hg. apply H, Hg.
Qed.

Lemma two_edits_galls (s : State) (f1 f2 : string) (v1 v2 : qval) :
  f1 <> f2 ->
  consistent s = true ->
  galls (doSearch (doSearch s f1 v1) f2 v2)
  = List.filter
      (fun g => checkGall g (updateQuery (updateQuery (query s) f1 v1) f2 v2))
      (galls s).
Proof.
  intros Hne Hc. cbn. apply filter_filter_implied.
  intros g Hg Hnew.
  apply (checkGall_before_edit g _ f2 v2); [| exact Hnew].
  intros k Hk.
  rewrite (check_ext k g _ (query s)).
  - apply checkGall_true, consistent_In; assumption.
  - apply updateQuery_other. congruence.
Qed.

(** X3: in a state whose displayed records satisfy the stored query, edits of
    two different fields give the same state in either order. *)
Theorem doSearch_commute (s : State) (f1 f2 : string) (v1 v2 : qval) :
  f1 <> f2 ->
  consistent s = true ->
  doSearch (doSearch s f1 v1) f2 v2 = doSearch (doSearch s f2 v2) f1 v1.
Proof.
  intros Hne Hc.
  assert (Hq : updateQuery (updateQuery (query s) f1 v1) f2 v2
               = updateQuery (updateQuery (query s) f2 v2) f1 v1).
  { unfold updateQuery. apply insert_insert_ne. congruence. }
  pose proof (two_edits_galls s f1 f2 v1 v2 Hne Hc) as H12.
  pose proof (two_edits_galls s f2 f1 v2 v1 (not_eq_sym Hne) Hc) as H21.
  rewrite <- Hq in H21.
  change (doSearch (doSearch s f1 v1) f2 v2)
    with {| galls := galls (doSearch (doSearch s f1 v1) f2 v2);
            query := updateQuery (updateQuery (query s) f1 v1) f2 v2;
            filterForm := filterForm s |}.
  change (doSearch (doSearch s f2 v2) f1 v1)
    with {| galls := galls (doSearch (doSearch s f2 v2) f1 v1);
            query := updateQuery (updateQuery (query s) f2 v2) f1 v1;
            filterForm := filterForm s |}.
  rewrite H12, H21, Hq. reflexivity.
Qed.

Lemma doSearch_commute_witness :
  doSearch (doSearch filtered "locations" (QArr ["leaf"])) "color" (QArr [])
  = doSearch (doSearch filtered "color" (QArr [])) "locations" (QArr ["leaf"]).
Proof.
  apply (doSearch_commute filtered "locations" "color").
  - discriminate.
  - reflexivity.
Defined.

Lemma edits_cons (s : State) (f : string) (v : qval)
    (fvs : list (string * qval)) :
  edits s ((f, v) :: fvs) = edits (doSearch s f v) fvs.
Proof. reflexivity. Qed.

(** X4: while every edit sets a facet the query leaves unconstrained, narrowing
    step by step gives the records of the superset that satisfy the final
    query. *)
Theorem tightening_filters_superset (base : list Gall)
    (fvs : list (string * qval)) (s : State) :
  galls s = List.filter (fun g => checkGall g (query s)) base ->
  tightening (query s) fvs = true ->
  galls (edits s fvs)
  = List.filter (fun g => checkGall g (query (edits s fvs))) base.
Proof.
  revert s. induction fvs as [|[f v] fvs IH]; intros s Hs Ht.
  - exact Hs.
  - cbn in Ht. apply andb_true_iff in Ht as [Hf Ht].
    rewrite edits_cons. apply IH; [| exact Ht].
    rewrite doSearch_galls, Hs. apply filter_filter_implied.
    intros g _. apply checkGall_before_edit.
    intros k Hk. apply check_dontCare. rewrite Hk. exact Hf.
Qed.

Lemma tightening_filters_superset_witness :
  galls (edits loaded [("color", QArr ["green"]);
                       ("locations", QArr ["leaf"])])
  = List.filter
      (fun g => checkGall g
         (query (edits loaded [("color", QArr ["green"]);
                               ("locations", QArr ["leaf"])])))
      [gall1; gall2; gall3].
Proof.
  apply (tightening_filters_superset [gall1; gall2; gall3]
           [("color", QArr ["green"]); ("locations", QArr ["leaf"])] loaded);
    reflexivity.
Defined.

Lemma updateQuery_dontCare (q : SearchQuery) (f : string) (v : qval) :
  dontCare (Some v) = true -> updateQuery q f v !! f = Some v.
Proof.
  intros Hv. rewrite updateQuery_lookup.
  apply dontCare_cases in Hv as [Hv | [Hv | Hv]]; inversion Hv; subst;
    cbn; rewrite andb_false_r; reflexivity.
Qed.

(** X5: an edit with a don't-care value filters the displayed set as if the key
    of the facet had been removed from the query. *)
Theorem clearing_is_forgetting (s : State) (f : string) (v : qval) :
  dontCare (Some v) = true ->
  galls (doSearch s f v)
  = List.filter (fun g => checkGall g (delete f (query s))) (galls s).
Proof.
  intros Hv. rewrite doSearch_galls. apply filter_ext. intros g.
  rewrite !checkGall_forallb.
  induction all_facets as [|k ks IH]; [reflexivity |]. cbn. rewrite IH.
  f_equal. destruct (decide (key k = f)) as [Hk | Hk].
  - rewrite !check_dontCare; [reflexivity | |].
    + rewrite Hk, lookup_delete_eq. reflexivity.
    + rewrite Hk, updateQuery_dontCare; assumption.
  - apply check_ext.
    rewrite updateQuery_other, lookup_delete_ne by congruence. reflexivity.
Qed.

Lemma clearing_is_forgetting_witness :
  galls (doSearch filtered "color" (QStr ""))
  = List.filter (fun g => checkGall g (delete "color" (query filtered)))
      (galls filtered).
Proof.
  apply (clearing_is_forgetting filtered "color" (QStr "")). reflexivity.
Defined.

(** ** A typed string on a multi-valued facet *)

Lemma prefix_append (p s : string) :
  String.prefix p s = true <-> exists b, s = p +:+ b.
Proof.
  revert s. induction p as [|c p IH]; intros s.
  - split; [intros _; exists s; reflexivity | intros _; destruct s; reflexivity].
  - destruct s as [|d s]; cbn.
    + split; [discriminate | intros [b Hb]; discriminate].
    + destruct (Ascii.ascii_dec c d) as [-> | Hne].
      * rewrite IH. split; intros [b Hb]; exists b;
          [rewrite Hb; reflexivity | inversion Hb; reflexivity].
      * split; [discriminate | intros [b Hb]; inversion Hb; subst; congruence].
Qed.

Lemma str_includes_occurs (s sub : string) :
  str_includes s sub = true <-> exists a b, s = a +:+ sub +:+ b.
Proof.
  induction s as [|c s IH].
  - change (str_includes "" sub) with (String.prefix sub "" || false).
    rewrite orb_false_r, prefix_append. split.
    + intros [b Hb]. exists "", b. exact Hb.
    + intros (a & b & H). destruct a; [exists b; exact H | discriminate].
  - change (str_includes (String c s) sub)
      with (String.prefix sub (String c s) || str_includes s sub).
    rewrite orb_true_iff, prefix_append, IH. split.
    + intros [[b Hb] | (a & b & H)].
      * exists "", b. exact Hb.
      * exists (String c a), b. rewrite H. reflexivity.
    + intros (a & b & H). destruct a as [|c' a].
      * left. exists b. exact H.
      * right. exists a, b. inversion H. reflexivity.
Qed.

Lemma tag_hit_str (tag : option string) (s : string) :
  tag_hit tag (QStr s) = true <->
  exists t, tag = Some t /\ t <> "" /\ exists a b, s = a +:+ t +:+ b.
Proof.
  destruct tag as [t|]; cbn.
  - rewrite andb_true_iff, str_includes_occurs. split.
    + intros [Ht H]. exists t. repeat split; [| exact H].
      intros ->. discriminate Ht.
    + intros (t' & Heq & Hne & H). inversion Heq; subst t'. split; [| exact H].
      destruct t; [contradiction | reflexivity].
  - split; [discriminate | intros (t & Heq & _); discriminate].
Qed.

Lemma existsb_tag_hit_str {A} (tag : A -> option string) (xs : list A)
    (s : string) :
  existsb (fun x => tag_hit (tag x) (QStr s)) xs = true <->
  exists t, Some t ∈ tag <$> xs /\ t <> "" /\ exists a b, s = a +:+ t +:+ b.
Proof.
  rewrite existsb_exists. split.
  - intros (x & Hx & Hhit). apply tag_hit_str in Hhit as (t & Ht & Hne & H).
    exists t. repeat split; [| exact Hne | exact H].
    apply list_elem_of_fmap. exists x.
    split; [symmetry; exact Ht | apply list_elem_of_In, Hx].
  - intros (t & Hmem & Hne & H).
    apply list_elem_of_fmap in Hmem as (x & Ht & Hx).
    exists x. split; [apply list_elem_of_In, Hx |].
    apply tag_hit_str. exists t. auto.
Qed.

(** X6: when the query holds a non-empty string for a multi-valued facet, as it
    does after the text of the control is submitted with the Enter key, a
    record passes iff one of its non-empty tags occurs somewhere inside
    that string. *)
Theorem typed_multi_facet_substring (f : facet) (g : Gall) (q : SearchQuery)
    (s : string) :
  single f = false ->
  q !! key f = Some (QStr s) ->
  s <> "" ->
  check f g q = true <->
  exists ts, tags f g = Some ts /\
             exists t, Some t ∈ ts /\ t <> "" /\
                       exists a b, s = a +:+ t +:+ b.
Proof.
  intros Hm Hq Hs.
  assert (Hd : dontCare (Some (QStr s)) = false)
    by (destruct s; [contradiction | reflexivity]).
  destruct f; try discriminate Hm; cbn in Hq |- *.
  - unfold check_location, checkLocations. rewrite Hq, Hd, orb_false_l.
    destruct (g_galllocation g) as [gps|]; cbn.
    + rewrite existsb_tag_hit_str. split.
      * intros H. exists (location_tag <$> gps). split; [reflexivity | exact H].
      * intros (ts & Hts & H). inversion Hts; subst ts. exact H.
    + split; [discriminate | intros (ts & Hts & _); discriminate].
  - unfold check_texture, checkTextures. rewrite Hq, Hd, orb_false_l.
    destruct (g_galltexture g) as [gps|]; cbn.
    + rewrite existsb_tag_hit_str. split.
      * intros H. exists (texture_tag <$> gps). split; [reflexivity | exact H].
      * intros (ts & Hts & H). inversion Hts; subst ts. exact H.
    + split; [discriminate | intros (ts & Hts & _); discriminate].
Qed.

Lemma typed_multi_facet_substring_witness :
  check Locations gall2 (updateQuery ∅ "locations" (QStr "leaflet")) = true <->
  exists ts, tags Locations gall2 = Some ts /\
             exists t, Some t ∈ ts /\ t <> "" /\
                       exists a b, "leaflet" = a +:+ t +:+ b.
Proof.
  apply (typed_multi_facet_substring Locations gall2
           (updateQuery ∅ "locations" (QStr "leaflet")) "leaflet").
  - reflexivity.
  - reflexivity.
  - discriminate.
Defined.

(** ** The result pane and the facet controls *)

Lemma step_host (s : State) (e : event) :
  off_host e = true -> query (step s e) !! "host" = query s !! "host".
Proof.
  destruct e as [fields fetch | f v]; cbn; intros H.
  - rewrite onSubmit_query. reflexivity.
  - apply updateQuery_other. apply negb_true_iff, String.eqb_neq in H. exact H.
Qed.

Lemma run_host (es : list event) (s : State) :
  forallb off_host es = true -> query (run s es) !! "host" = query s !! "host".
Proof.
  revert s. induction es as [|e es IH]; intros s H; [reflexivity |].
  cbn in H. apply andb_true_iff in H as [He Hes].
  change (run s (e :: es)) with (run (step s e) es).
  rewrite (IH (step s e) Hes). apply step_host, He.
Qed.

(** X7: when the query has no [host] key, no run of root submissions and of
    edits on other fields brings up the notice that nothing matches the
    filter: an emptied list shows the hint to begin with a host or genus. *)
Theorem no_match_needs_host (s : State) (es : list event) :
  query s !! "host" = None ->
  forallb off_host es = true ->
  view (run s es) <> NoMatch /\
  (galls (run s es) = [] -> view (run s es) = BeginHint).
Proof.
  intros Hq Hes.
  assert (Hh : query (run s es) !! "host" = None)
    by (rewrite run_host; assumption).
  unfold view. rewrite Hh. split.
  - destruct (Nat.eqb (length (galls (run s es))) 0); discriminate.
  - intros ->. reflexivity.
Qed.

Lemma no_match_needs_host_witness :
  view (run (initial ∅)
          [RootSubmit (by_host "Quercus alba") (serve [gall1; gall2; gall3]);
           FacetEdit "shape" (QArr ["round"])]) = BeginHint.
Proof.
  refine (proj2 (no_match_needs_host (initial ∅)
            [RootSubmit (by_host "Quercus alba") (serve [gall1; gall2; gall3]);
             FacetEdit "shape" (QArr ["round"])] _ _) _); reflexivity.
Defined.

(** X8: once the displayed set is empty the facet controls are disabled, and no
    run of facet edits fills it or enables them again. *)
Theorem emptied_filters_stay_disabled (s : State)
    (fvs : list (string * qval)) :
  filters_disabled s = true ->
  galls (edits s fvs) = [] /\ filters_disabled (edits s fvs) = true.
Proof.
  intros Hd.
  assert (Hs : galls s = []).
  { unfold filters_disabled in Hd. destruct (galls s); [reflexivity |].
    discriminate Hd. }
  assert (He : galls (edits s fvs) = []).
  { pose proof (edits_sublist fvs s) as Hsub. rewrite Hs in Hsub.
    apply sublist_nil_r in Hsub. exact Hsub. }
  split; [exact He |]. unfold filters_disabled. rewrite He. reflexivity.
Qed.

Lemma emptied_filters_stay_disabled_witness :
  galls (edits (initial ∅) [("color", QArr ["green"]); ("color", QArr [])])
  = [] /\
  filters_disabled
    (edits (initial ∅) [("color", QArr ["green"]); ("color", QArr [])])
  = true.
Proof.
  apply (emptied_filters_stay_disabled (initial ∅)). reflexivity.
Defined.

(** ** The description shown with a record *)

Lemma substring_0_length (n : nat) (s : string) :
  String.length (String.substring 0 n s) = Nat.min n (String.length s).
Proof.
  revert s. induction n as [|n IH]; intros s.
  - destruct s; reflexivity.
  - destruct s as [|c s]; [reflexivity |]. cbn. rewrite IH. reflexivity.
Qed.

Lemma substring_0_prefix (n : nat) (s : string) :
  exists rest, s = String.substring 0 n s +:+ rest.
Proof.
  revert s. induction n as [|n IH]; intros s.
  - exists s. destruct s; reflexivity.
  - destruct s as [|c s]; [exists ""; reflexivity |].
    destruct (IH s) as [rest Hrest]. exists rest.
    change (String c s = String c (String.substring 0 n s +:+ rest)).
    rewrite <- Hrest. reflexivity.
Qed.

Lemma append_length (a b : string) :
  String.length (a +:+ b) = (String.length a + String.length b)%nat.
Proof. induction a as [|c a IH]; [reflexivity | simpl; f_equal; exact IH]. Qed.

(** X9: the description shown is never longer than 403 characters. *)
Theorem gallDescription_length (species : option Species) :
  (String.length (gallDescription species) <= 403)%nat.
Proof.
  unfold gallDescription.
  destruct species as [sp|]; [| cbn; lia].
  destruct (sp_description sp) as [d|]; [| cbn; lia].
  destruct (str_truthy d); [| cbn; lia].
  destruct (Nat.ltb_spec 400 (String.length d)) as [Hlong | Hshort].
  - rewrite append_length, substring_0_length.
    change (String.length "...") with 3%nat. lia.
  - lia.
Qed.

(** X10: a description of at most 400 characters is shown as it is; a longer one
    is cut to its first 400 characters followed by three dots, 403
    characters in all. *)
Theorem gallDescription_cut (sp : Species) (d : string) :
  sp_description sp = Some d ->
  ((String.length d <= 400)%nat -> gallDescription (Some sp) = d) /\
  ((400 < String.length d)%nat ->
   gallDescription (Some sp) = String.substring 0 400 d +:+ "..." /\
   String.length (gallDescription (Some sp)) = 403%nat /\
   exists rest, d = String.substring 0 400 d +:+ rest).
Proof.
  intros Hd. unfold gallDescription. rewrite Hd. split.
  - intros Hshort. destruct d as [|c d]; [reflexivity |].
    cbn [str_truthy]. apply Nat.ltb_ge in Hshort. rewrite Hshort. reflexivity.
  - intros Hlong.
    assert (Ht : str_truthy d = true)
      by (destruct d; [cbn in Hlong; lia | reflexivity]).
    rewrite Ht. apply Nat.ltb_lt in Hlong as Hb. rewrite Hb.
    split; [reflexivity |]. split; [| apply substring_0_prefix].
    rewrite append_length, substring_0_length.
    change (String.length "...") with 3%nat. lia.
Qed.

Lemma gallDescription_cut_witness :
  gallDescription
    (Some {| sp_name := "Andricus weldi";
             sp_description := Some "A round stem gall." |})
  = "A round stem gall.".
Proof.
  refine (proj1 (gallDescription_cut
            {| sp_name := "Andricus weldi";
               sp_description := Some "A round stem gall." |}
            "A round stem gall." eq_refl) _).
  vm_compute. lia.
Defined.

(** ** The request of a root submission *)

(** X11: two root forms are sent to the same address exactly when they stand
    for the same selector: a host query is never taken for a genus query,
    and different names give different addresses. *)
Theorem search_url_selector (f1 f2 : SearchFormFields) :
  search_url f1 = search_url f2 <-> selector f1 = selector f2.
Proof.
  unfold search_url, selector.
  destruct (host f1) as [h1|], (host f2) as [h2|];
    try destruct (str_truthy h1); try destruct (str_truthy h2);
    (split; intros H; simpl in H; simplify_eq; simpl; congruence).
Qed.

(** ** Single-valued facets and the independence of the facets *)




(** X13: an edit of one field changes the outcome of no facet that reads another
    key of the query. *)
Theorem facet_independent (k : facet) (g : Gall) (q : SearchQuery)
    (f : string) (v : qval) :
  key k <> f -> check k g (updateQuery q f v) = check k g q.
Proof.
  intros Hne. apply check_ext. apply updateQuery_other. congruence.
Qed.

Lemma facet_independent_witness :
  check Color gall2 (updateQuery {[ "color" := QStr "brown" ]} "shape"
                       (QArr ["round"]))
  = check Color gall2 {[ "color" := QStr "brown" ]}.
Proof.
  apply (facet_independent Color gall2 {[ "color" := QStr "brown" ]}).
  discriminate.
Defined.

(** X14: a merge writes the edited key only: every other key keeps its value, a
    second edit of the key replaces the first, a non-empty selection for a
    single-valued facet is stored as its first element, and for the
    multi-valued facets the value is stored whole. *)
Theorem updateQuery_overwrites (q : SearchQuery) (f f' : string)
    (v1 v2 : qval) (k : facet) (x : string) (l : list string) :
  f <> f' ->
  updateQuery q f v1 !! f' = q !! f' /\
  updateQuery (updateQuery q f v1) f v2 = updateQuery q f v2 /\
  updateQuery q (key k) (QArr (x :: l)) !! key k
  = Some (if single k then QStr x else QArr (x :: l)) /\
  (single k = false -> updateQuery q (key k) v1 !! key k = Some v1).
Proof.
  intros Hne.
  split; [apply updateQuery_other, Hne |].
  split; [apply updateQuery_again |].
  split; [| apply updateQuery_multi].
  rewrite updateQuery_lookup. destruct k; reflexivity.
Qed.

Lemma updateQuery_overwrites_witness :
  updateQuery {[ "shape" := QStr "round" ]} "color" (QArr ["green"]) !! "shape"
  = Some (QStr "round").
Proof.
  refine (proj1 (updateQuery_overwrites {[ "shape" := QStr "round" ]}
            "color" "shape" (QArr ["green"]) (QArr []) Color "" [] _)).
  discriminate.
Defined.

(** X15: a root submission, whatever its outcome, empties the filter form and
    leaves the query as it was; the displayed set becomes the fetched
    superset when there is one and stays as it was otherwise. *)
Theorem root_submit_effect (s : State) (fields : SearchFormFields)
    (fetch : string -> FetchResult) :
  filterForm (onSubmit s fields fetch) = ∅ /\
  query (onSubmit s fields fetch) = query s /\
  galls (onSubmit s fields fetch) = default (galls s) (fetched fields fetch).
Proof.
  split; [| split; [apply onSubmit_query | apply onSubmit_galls]].
  unfold onSubmit.
  destruct (fetch (search_url fields)) as [|status [gs|] text];
    [reflexivity | destruct (status =? 200); reflexivity ..].
Qed.

(** ** The host form: genus and name pattern *)

Import Stdlib.Strings.Ascii.

Lemma no_space_cons (c : ascii) (w : string) :
  str_includes (String c w) " " = false <->
  c <> " "%char /\ str_includes w " " = false.
Proof.
  change (str_includes (String c w) " ")
    with (String.prefix " " (String c w) || str_includes w " ").
  rewrite orb_false_iff.
  assert (Hp : String.prefix " " (String c w) = false <-> c <> " "%char).
  { split.
    - intros H ->.
      assert (Ht : String.prefix " " (String " " w) = true)
        by (apply prefix_append; exists w; reflexivity).
      congruence.
    - intros Hne. apply not_true_is_false. intros H.
      apply prefix_append in H as [b Hb]. inversion Hb. congruence. }
  rewrite Hp. reflexivity.
Qed.

Lemma split_space_head (n : string) :
  exists w ws,
    HostAdmin.split_space n = w :: ws /\
    str_includes w " " = false /\
    (ws = [] -> n = w) /\
    (ws <> [] -> exists rest, n = w +:+ " " +:+ rest).
Proof.
  induction n as [|c n IH].
  - exists "", []. split; [reflexivity |]. split; [reflexivity |].
    split; [reflexivity | contradiction].
  - destruct IH as (w & ws & Hsplit & Hw & Hone & Hmore).
    cbn [HostAdmin.split_space].
    destruct (eqb_spec c " ") as [-> | Hc].
    + exists "", (HostAdmin.split_space n).
      split; [reflexivity |]. split; [reflexivity |]. split.
      * rewrite Hsplit. discriminate.
      * intros _. exists n. reflexivity.
    + rewrite Hsplit. exists (String c w), ws.
      split; [reflexivity |]. split; [apply no_space_cons; auto |]. split.
      * intros Hws. rewrite (Hone Hws). reflexivity.
      * intros Hws. destruct (Hmore Hws) as [rest Hrest].
        exists rest. rewrite Hrest. reflexivity.
Qed.

(** X16: the genus taken from a name holds no space and is the name itself or
    the part of it before its first space. *)
Theorem extractGenus_first_word (n : string) :
  str_includes (HostAdmin.extractGenus n) " " = false /\
  (n = HostAdmin.extractGenus n \/
   exists rest, n = HostAdmin.extractGenus n +:+ " " +:+ rest).
Proof.
  unfold HostAdmin.extractGenus.
  destruct (split_space_head n) as (w & ws & Hsplit & Hw & Hone & Hmore).
  rewrite Hsplit. cbn. split; [exact Hw |].
  destruct ws as [|w' ws]; [left; apply Hone; reflexivity |].
  right. apply Hmore. discriminate.
Qed.

Lemma extractGenus_before_space (w rest : string) :
  str_includes w " " = false ->
  HostAdmin.extractGenus (w +:+ " " +:+ rest) = w.
Proof.
  unfold HostAdmin.extractGenus. induction w as [|c w IH]; intros Hw.
  - reflexivity.
  - apply no_space_cons in Hw as [Hc Hw]. specialize (IH Hw).
    change (String c w +:+ " " +:+ rest) with (String c (w +:+ " " +:+ rest)).
    cbn. destruct (eqb_spec c " ") as [-> | _]; [contradiction |].
    destruct (HostAdmin.split_space (w +:+ " " +:+ rest)) as [|w' ws] eqn:Hs.
    + destruct (split_space_head (w +:+ " " +:+ rest)) as (? & ? & H & _).
      rewrite Hs in H. discriminate.
    + cbn in IH |- *. rewrite IH. reflexivity.
Qed.

Lemma lower_not_space (c : ascii) : HostAdmin.is_lower c = true -> c <> " "%char.
Proof. intros H ->. discriminate H. Qed.

Lemma upper_not_space (c : ascii) : HostAdmin.is_upper c = true -> c <> " "%char.
Proof. intros H ->. discriminate H. Qed.

Lemma all_lower_no_space (w : string) :
  HostAdmin.all_lower w = true -> str_includes w " " = false.
Proof.
  induction w as [|c w IH]; [reflexivity |]. cbn [HostAdmin.all_lower].
  intros H. apply andb_true_iff in H as [Hc Hw].
  apply no_space_cons. split; [apply lower_not_space, Hc | apply IH, Hw].
Qed.

Lemma lowers_end_all (e : string) :
  HostAdmin.lowers_end e = true <-> e <> "" /\ HostAdmin.all_lower e = true.
Proof.
  induction e as [|c e IH].
  - split; [discriminate | intros [H _]; contradiction].
  - change (HostAdmin.lowers_end (String c e))
      with (HostAdmin.is_lower c &&
            match e with "" => true | _ => HostAdmin.lowers_end e end).
    change (HostAdmin.all_lower (String c e))
      with (HostAdmin.is_lower c && HostAdmin.all_lower e).
    rewrite !andb_true_iff. destruct e as [|d e].
    + split.
      * intros [Hc _]. split; [discriminate | split; [exact Hc | reflexivity]].
      * intros [_ [Hc _]]. split; [exact Hc | reflexivity].
    + rewrite IH. split.
      * intros [Hc [_ He]]. split; [discriminate | split; assumption].
      * intros [_ [Hc He]]. split; [exact Hc | split; [discriminate | exact He]].
Qed.

Lemma lowers_space_lowers_cons (c : ascii) (s : string) :
  HostAdmin.lowers_space_lowers (String c s)
  = HostAdmin.is_lower c &&
    match s with
    | "" => false
    | String d e =>
        if eqb d " " then HostAdmin.lowers_end e
        else HostAdmin.lowers_space_lowers s
    end.
Proof.
  destruct s as [|d e]; [reflexivity |].
  destruct d as [[] [] [] [] [] [] [] []]; reflexivity.
Qed.

Lemma lowers_space_lowers_split (s : string) :
  HostAdmin.lowers_space_lowers s = true <->
  exists g e, s = g +:+ " " +:+ e /\ g <> "" /\
              HostAdmin.all_lower g = true /\ HostAdmin.lowers_end e = true.
Proof.
  induction s as [|c s IH].
  - split; [discriminate |].
    intros (g & e & H & _). destruct g; discriminate H.
  - rewrite lowers_space_lowers_cons, andb_true_iff. split.
    + intros [Hc H]. destruct s as [|d s]; [discriminate H |].
      destruct (eqb_spec d " ") as [-> | Hd].
      * exists (String c ""), s.
        split; [reflexivity |]. split; [discriminate |]. split; [| exact H].
        cbn. rewrite Hc. reflexivity.
      * apply IH in H as (g & e & Hs & Hg & Hgl & He).
        exists (String c g), e.
        split; [rewrite Hs; reflexivity |]. split; [discriminate |].
        split; [| exact He]. cbn. rewrite Hc. exact Hgl.
    + intros (g & e & Hs & Hg & Hgl & He).
      destruct g as [|c' g]; [contradiction |].
      inversion Hs; subst c' s. cbn in Hgl.
      apply andb_true_iff in Hgl as [Hc Hgl]. split; [exact Hc |].
      destruct g as [|d g].
      * cbn. exact He.
      * assert (Hd : d <> " "%char).
        { cbn in Hgl. apply andb_true_iff in Hgl as [Hd _].
          apply lower_not_space, Hd. }
        change (String d g +:+ " " +:+ e) with (String d (g +:+ " " +:+ e)).
        cbv match. destruct (eqb_spec d " ") as [-> | _]; [contradiction |].
        apply IH. exists (String d g), e.
        split; [reflexivity |]. split; [discriminate |]. split; assumption.
Qed.

Lemma binomial_at_split (s : string) :
  HostAdmin.binomial_at s = true <->
  exists c g e, s = String c g +:+ " " +:+ e /\
                HostAdmin.is_upper c = true /\
                g <> "" /\ HostAdmin.all_lower g = true /\
                e <> "" /\ HostAdmin.all_lower e = true.
Proof.
  destruct s as [|c s].
  - split; [discriminate | intros (c & g & e & H & _); discriminate H].
  - cbn [HostAdmin.binomial_at].
    rewrite andb_true_iff, lowers_space_lowers_split. split.
    + intros [Hc (g & e & Hs & Hg & Hgl & He)].
      apply lowers_end_all in He as [He Hel].
      exists c, g, e. rewrite Hs. auto 10.
    + intros (c' & g & e & Hs & Hc & Hg & Hgl & He & Hel).
      inversion Hs; subst c' s. split; [exact Hc |].
      exists g, e. split; [reflexivity |]. split; [exact Hg |].
      split; [exact Hgl |]. apply lowers_end_all. auto.
Qed.

(** X17: the pattern of the name field accepts exactly the strings that end in a
    capitalised word of at least two letters, one space and a lower-case
    word; whatever stands before that ending is not looked at. *)
Theorem name_matches_ending (s : string) :
  HostAdmin.name_matches s = true <->
  exists pre c g e, s = pre +:+ String c g +:+ " " +:+ e /\
                    HostAdmin.is_upper c = true /\
                    g <> "" /\ HostAdmin.all_lower g = true /\
                    e <> "" /\ HostAdmin.all_lower e = true.
Proof.
  induction s as [|a s IH].
  - split; [discriminate |].
    intros (pre & c & g & e & H & _). destruct pre; discriminate H.
  - change (HostAdmin.name_matches (String a s))
      with (HostAdmin.binomial_at (String a s) || HostAdmin.name_matches s).
    rewrite orb_true_iff, binomial_at_split, IH. split.
    + intros [(c & g & e & H) | (pre & c & g & e & Hs & H)].
      * exists "", c, g, e. exact H.
      * exists (String a pre), c, g, e. rewrite Hs. split; [reflexivity | exact H].
    + intros (pre & c & g & e & Hs & H). destruct pre as [|a' pre].
      * left. exists c, g, e. split; [exact Hs | exact H].
      * right. inversion Hs; subst a' s. exists pre, c, g, e.
        split; [reflexivity | exact H].
Qed.

(** X18: when the name is a binomial from its first character on, the genus
    taken from it is the capitalised word. *)
Theorem extractGenus_of_binomial (n : string) :
  HostAdmin.binomial_at n = true ->
  exists c g, HostAdmin.extractGenus n = String c g /\
              HostAdmin.is_upper c = true /\
              g <> "" /\ HostAdmin.all_lower g = true.
Proof.
  intros H. apply binomial_at_split in H
    as (c & g & e & Hn & Hc & Hg & Hgl & _).
  exists c, g. split; [| auto]. rewrite Hn.
  apply extractGenus_before_space. apply no_space_cons.
  split; [apply upper_not_space, Hc | apply all_lower_no_space, Hgl].
Qed.

Lemma extractGenus_of_binomial_witness :
  exists c g, HostAdmin.extractGenus "Andricus weldi" = String c g /\
              HostAdmin.is_upper c = true /\
              g <> "" /\ HostAdmin.all_lower g = true.
Proof. apply (extractGenus_of_binomial "Andricus weldi"). reflexivity. Defined.

(** The pattern lets a name through whose genus, as the form extracts it,
    is not the capitalised word. *)
Example name_with_leading_text :
  HostAdmin.name_matches "the gall Andricus weldi" = true /\
  HostAdmin.extractGenus "the gall Andricus weldi" = "the".
Proof. split; reflexivity. Qed.
(** ** The host form: submission *)

Lemma host_onSubmit_request (hosts : list HostAdmin.species)
    (s : HostAdmin.State) (data : HostAdmin.SpeciesUpsertFields)
    (fetch fetch' : HostAdmin.request -> option HostAdmin.response) :
  fetch (HostAdmin.request_of hosts data)
  = fetch' (HostAdmin.request_of hosts data) ->
  HostAdmin.onSubmit hosts s data fetch = HostAdmin.onSubmit hosts s data fetch'.
Proof.
  unfold HostAdmin.onSubmit, HostAdmin.request_of.
  destruct (HostAdmin.f_delete data); intros ->; reflexivity.
Qed.

(** X19: when the request of the host form fails (it is rejected, the status is
    not 200, or the answer to a delete does not parse) the page is left as
    it was: nothing is recorded as deleted, no address is pushed and the
    form keeps its values. *)
Theorem host_submit_failure (hosts : list HostAdmin.species)
    (s : HostAdmin.State) (data : HostAdmin.SpeciesUpsertFields)
    (fetch : HostAdmin.request -> option HostAdmin.response) :
  HostAdmin.succeeded data (fetch (HostAdmin.request_of hosts data)) = false ->
  HostAdmin.onSubmit hosts s data fetch = s.
Proof.
  unfold HostAdmin.succeeded, HostAdmin.onSubmit, HostAdmin.request_of.
  destruct (HostAdmin.f_delete data); cbn;
    (destruct (fetch _) as [res|]; [| reflexivity]);
    destruct (HostAdmin.status res =? 200); cbn; try reflexivity;
    try discriminate.
  destruct (HostAdmin.json res); [discriminate | reflexivity].
Qed.

Lemma host_submit_failure_witness :
  HostAdmin.onSubmit sample_hosts sample_host_state (delete_of "Quercus alba")
    (answer 500 None "")
  = sample_host_state.
Proof.
  apply (host_submit_failure sample_hosts sample_host_state
           (delete_of "Quercus alba")).
  reflexivity.
Defined.

(** X20: when the request succeeds the form is emptied, and exactly one thing
    more happens: a delete records the result and pushes no address, an
    upsert pushes the address of the response and records nothing. *)
Theorem host_submit_success (hosts : list HostAdmin.species)
    (s : HostAdmin.State) (data : HostAdmin.SpeciesUpsertFields)
    (fetch : HostAdmin.request -> option HostAdmin.response)
    (res : HostAdmin.response) :
  fetch (HostAdmin.request_of hosts data) = Some res ->
  HostAdmin.succeeded data (Some res) = true ->
  let s' := HostAdmin.onSubmit hosts s data fetch in
  HostAdmin.form s' = ∅ /\
  HostAdmin.existing s' = HostAdmin.existing s /\
  (if HostAdmin.f_delete data
   then HostAdmin.deleteResults s' = HostAdmin.json res /\
        HostAdmin.pushed s' = HostAdmin.pushed s
   else HostAdmin.deleteResults s' = HostAdmin.deleteResults s /\
        HostAdmin.pushed s' = (HostAdmin.pushed s ++ [HostAdmin.url res])%list).
Proof.
  unfold HostAdmin.succeeded, HostAdmin.onSubmit, HostAdmin.request_of.
  destruct (HostAdmin.f_delete data); cbn; intros -> Hok;
    apply andb_true_iff in Hok as [H200 Hjson]; rewrite H200.
  - destruct (HostAdmin.json res); [| discriminate Hjson]. cbn. auto.
  - cbn. auto.
Qed.

Lemma host_submit_success_witness :
  HostAdmin.form
    (HostAdmin.onSubmit sample_hosts sample_host_state
       (upsert_of "Quercus alba") (answer 200 None "/host/7")) = ∅ /\
  HostAdmin.existing
    (HostAdmin.onSubmit sample_hosts sample_host_state
       (upsert_of "Quercus alba") (answer 200 None "/host/7")) = true /\
  HostAdmin.deleteResults
    (HostAdmin.onSubmit sample_hosts sample_host_state
       (upsert_of "Quercus alba") (answer 200 None "/host/7")) = None /\
  HostAdmin.pushed
    (HostAdmin.onSubmit sample_hosts sample_host_state
       (upsert_of "Quercus alba") (answer 200 None "/host/7")) = ["/host/7"].
Proof.
  exact (host_submit_success sample_hosts sample_host_state
           (upsert_of "Quercus alba") (answer 200 None "/host/7")
           {| HostAdmin.status := 200; HostAdmin.json := None;
              HostAdmin.text := ""; HostAdmin.url := "/host/7" |}
           eq_refl eq_refl).
Defined.

Lemma find_none {A} (p : A -> bool) (l : list A) :
  (forall x, In x l -> p x = false) -> List.find p l = None.
Proof.
  induction l as [|x l IH]; intros H; [reflexivity |]. cbn.
  rewrite (H x (or_introl eq_refl)). apply IH. intros y Hy. apply H. right. exact Hy.
Qed.

(** X21: a delete of a name that no host of the page carries is still sent, to
    the address that ends in undefined, and the outcome of the handler
    depends on nothing but the answer to that request. *)
Theorem host_delete_unknown (hosts : list HostAdmin.species)
    (s : HostAdmin.State) (data : HostAdmin.SpeciesUpsertFields)
    (fetch fetch' : HostAdmin.request -> option HostAdmin.response) :
  HostAdmin.f_delete data = true ->
  (forall h, In h hosts -> HostAdmin.name h <> HostAdmin.f_name data) ->
  HostAdmin.request_of hosts data = HostAdmin.DELETE "../api/host/undefined" /\
  (fetch (HostAdmin.DELETE "../api/host/undefined")
   = fetch' (HostAdmin.DELETE "../api/host/undefined") ->
   HostAdmin.onSubmit hosts s data fetch
   = HostAdmin.onSubmit hosts s data fetch').
Proof.
  intros Hdel Hnone.
  assert (Hreq : HostAdmin.request_of hosts data
                 = HostAdmin.DELETE "../api/host/undefined").
  { unfold HostAdmin.request_of, HostAdmin.find_id. rewrite Hdel.
    rewrite find_none; [reflexivity |].
    intros h Hh. apply String.eqb_neq, Hnone, Hh. }
  split; [exact Hreq |].
  intros Hf. apply host_onSubmit_request. rewrite Hreq. exact Hf.
Qed.

Lemma host_delete_unknown_witness :
  HostAdmin.request_of sample_hosts (delete_of "Fagus grandifolia")
  = HostAdmin.DELETE "../api/host/undefined".
Proof.
  refine (proj1 (host_delete_unknown sample_hosts sample_host_state
            (delete_of "Fagus grandifolia") (answer 200 None "")
            (answer 200 None "") eq_refl _)).
  intros h [<- | [<- | []]]; discriminate.
Defined.

(** ** The host links of a gall *)


(** ** The taxonomy tree of a family *)

Section TreeFacts.

Variable localeCompare : string -> string -> Z.
Variable GallTaxon : string.

Lemma insert_by_perm {A} (by_name : A -> string) (x : A) (l : list A) :
  FamilyPage.insert_by localeCompare by_name x l ≡ₚ x :: l.
Proof.
  induction l as [|y l IH]; cbn; [reflexivity |].
  destruct (localeCompare (by_name x) (by_name y) <=? 0); [reflexivity |].
  rewrite IH. apply Permutation_swap.
Qed.

Lemma sort_by_perm {A} (by_name : A -> string) (l : list A) :
  FamilyPage.sort_by localeCompare by_name l ≡ₚ l.
Proof.
  induction l as [|x l IH]; cbn; [reflexivity |].
  fold (FamilyPage.sort_by localeCompare by_name l).
  rewrite insert_by_perm, IH. reflexivity.
Qed.

Hypothesis total : forall a b, localeCompare a b <= 0 \/ localeCompare b a <= 0.

Lemma insert_by_HdRel {A} (by_name : A -> string) (x y : A) (l : list A) :
  localeCompare (by_name y) (by_name x) <= 0 ->
  HdRel (fun a b => localeCompare (by_name a) (by_name b) <= 0) y l ->
  HdRel (fun a b => localeCompare (by_name a) (by_name b) <= 0) y
    (FamilyPage.insert_by localeCompare by_name x l).
Proof.
  intros Hyx Hl. destruct l as [|z l]; cbn.
  - constructor. exact Hyx.
  - destruct (localeCompare (by_name x) (by_name z) <=? 0);
      constructor; [exact Hyx | inversion Hl; assumption].
Qed.

Lemma insert_by_sorted {A} (by_name : A -> string) (x : A) (l : list A) :
  Sorted (fun a b => localeCompare (by_name a) (by_name b) <= 0) l ->
  Sorted (fun a b => localeCompare (by_name a) (by_name b) <= 0)
    (FamilyPage.insert_by localeCompare by_name x l).
Proof.
  induction 1 as [|y l Hs IH Hhd]; cbn.
  - repeat constructor.
  - destruct (Z.leb_spec (localeCompare (by_name x) (by_name y)) 0) as [Hle | Hgt].
    + constructor; [constructor; assumption | constructor; exact Hle].
    + constructor; [exact IH |].
      apply insert_by_HdRel; [| exact Hhd].
      destruct (total (by_name x) (by_name y)); [lia | assumption].
Qed.

Lemma sort_by_sorted {A} (by_name : A -> string) (l : list A) :
  Sorted (fun a b => localeCompare (by_name a) (by_name b) <= 0)
    (FamilyPage.sort_by localeCompare by_name l).
Proof.
  induction l as [|x l IH]; cbn; [constructor |].
  apply insert_by_sorted, IH.
Qed.

End TreeFacts.

(** X23: the tree of a family has one root, which carries the id and the name of
    the family; under it every taxon of the family appears once, and the
    taxa are in the order of their names. *)
Theorem family_tree_taxa (localeCompare : string -> string -> Z)
    (GallTaxon : string) (tree : FamilyPage.TaxonomyTree) :
  (forall a b, localeCompare a b <= 0 \/ localeCompare b a <= 0) ->
  exists root,
    FamilyPage.toTreeNodeInArray localeCompare GallTaxon tree = [root] /\
    FamilyPage.node_key root = pretty (FamilyPage.tree_id tree) /\
    FamilyPage.node_label root = FamilyPage.tree_name tree /\
    FamilyPage.node_url root = None /\
    FamilyPage.node_nodes root
    ≡ₚ FamilyPage.taxon_node localeCompare GallTaxon
         <$> FamilyPage.tree_taxonomy tree /\
    Sorted (fun a b => localeCompare a b <= 0)
      (FamilyPage.node_label <$> FamilyPage.node_nodes root).
Proof.
  intros Htotal. eexists. split; [reflexivity |]. cbn.
  split; [reflexivity |]. split; [reflexivity |]. split; [reflexivity |].
  split.
  - apply fmap_Permutation, sort_by_perm.
  - rewrite <- list_fmap_compose.
    apply (Sorted_fmap _
             (fun a b => localeCompare (FamilyPage.t_name a)
                           (FamilyPage.t_name b) <= 0)).
    + intros x y H. exact H.
    + apply sort_by_sorted, Htotal.
Qed.

Lemma by_length_total (a b : string) : by_length a b <= 0 \/ by_length b a <= 0.
Proof. unfold by_length. lia. Qed.

Lemma family_tree_taxa_witness :
  exists root,
    FamilyPage.toTreeNodeInArray by_length "gall" sample_tree = [root] /\
    FamilyPage.node_key root = pretty (FamilyPage.tree_id sample_tree) /\
    FamilyPage.node_label root = FamilyPage.tree_name sample_tree /\
    FamilyPage.node_url root = None /\
    FamilyPage.node_nodes root
    ≡ₚ FamilyPage.taxon_node by_length "gall"
         <$> FamilyPage.tree_taxonomy sample_tree /\
    Sorted (fun a b => by_length a b <= 0)
      (FamilyPage.node_label <$> FamilyPage.node_nodes root).
Proof.
  exact (family_tree_taxa by_length "gall" sample_tree by_length_total).
Defined.

(** X24: under a taxon every species of it appears once, in the order of the
    species names, as a leaf whose link goes to the gall page or to the host
    page of its own id. *)
Theorem family_tree_species (localeCompare : string -> string -> Z)
    (GallTaxon : string) (tt : FamilyPage.taxonomy) :
  (forall a b, localeCompare a b <= 0 \/ localeCompare b a <= 0) ->
  let leaves :=
    FamilyPage.node_nodes (FamilyPage.taxon_node localeCompare GallTaxon tt) in
  leaves ≡ₚ FamilyPage.species_node GallTaxon
              <$> FamilyPage.t_speciestaxonomy tt /\
  Sorted (fun a b => localeCompare a b <= 0) (FamilyPage.node_label <$> leaves) /\
  Forall (fun leaf =>
            FamilyPage.node_nodes leaf = [] /\
            (FamilyPage.node_url leaf
             = Some ("/gall/" +:+ FamilyPage.node_key leaf) \/
             FamilyPage.node_url leaf
             = Some ("/host/" +:+ FamilyPage.node_key leaf)))
         leaves.
Proof.
  intros Htotal leaves. subst leaves. cbn. split; [| split].
  - apply fmap_Permutation, sort_by_perm.
  - rewrite <- list_fmap_compose.
    apply (Sorted_fmap _
             (fun a b =>
                localeCompare (FamilyPage.name (FamilyPage.st_species a))
                  (FamilyPage.name (FamilyPage.st_species b)) <= 0)).
    + intros x y H. exact H.
    + apply (sort_by_sorted localeCompare Htotal
               (fun st => FamilyPage.name (FamilyPage.st_species st))).
  - apply Forall_fmap, Forall_forall. intros st _. cbn.
    split; [reflexivity |].
    destruct (FamilyPage.is_gall GallTaxon (FamilyPage.st_species st));
      [left | right]; reflexivity.
Qed.

Lemma family_tree_species_witness :
  Forall (fun leaf =>
            FamilyPage.node_nodes leaf = [] /\
            (FamilyPage.node_url leaf
             = Some ("/gall/" +:+ FamilyPage.node_key leaf) \/
             FamilyPage.node_url leaf
             = Some ("/host/" +:+ FamilyPage.node_key leaf)))
    (FamilyPage.node_nodes
       (FamilyPage.taxon_node by_length "gall" sample_taxon)).
Proof.
  exact (proj2 (proj2 (family_tree_species by_length "gall" sample_taxon
                         by_length_total))).
Defined.

Example sample_tree_nodes :
  FamilyPage.toTreeNodeInArray by_length "gall" sample_tree
  = [ FamilyPage.TreeNode "1" "Cynipidae"
        (Some [ FamilyPage.TreeNode "10" "Andricus"
                  (Some [ FamilyPage.TreeNode "43" "Quercus alba" None
                            (Some "/host/43");
                          FamilyPage.TreeNode "42" "Andricus weldi" None
                            (Some "/gall/42") ])
                  None;
                FamilyPage.TreeNode "20" "Callirhytis" (Some []) None ])
        None ].
Proof. vm_compute. reflexivity. Qed.

(** A species is linked as a gall exactly when its taxon code is the gall
    code; a species without a code is linked as a host. *)
Theorem species_node_link (GallTaxon : string) (st : FamilyPage.speciestaxonomy) :
  FamilyPage.node_url (FamilyPage.species_node GallTaxon st)
  = Some ("/gall/" +:+ pretty (FamilyPage.id (FamilyPage.st_species st)))
  <-> FamilyPage.taxoncode (FamilyPage.st_species st) = Some GallTaxon.
Proof.
  unfold FamilyPage.species_node, FamilyPage.is_gall. cbn.
  destruct (FamilyPage.taxoncode (FamilyPage.st_species st)) as [c|].
  - destruct (String.eqb_spec c GallTaxon) as [-> | Hne].
    + split; reflexivity.
    + split; [discriminate | congruence].
  - split; discriminate.
Qed.
